(** * Cycle runner of the iteration benchmark (src/program.cxx and
    src/program_optimized.cxx), shallow embedding.

    Both programs are modelled as computations in a small state/fuel monad
    over an environment that fixes the behaviour of the clocks and of the
    file system:
    - every call to [system_clock::now()] or [steady_clock::now()] consumes
      one entry of a single read counter; read number [k] returns
      [system env k] (wall clock, milliseconds since the epoch) or
      [steady env k] (monotonic clock, milliseconds);
    - every [std::ofstream] opened by the program consumes one entry of an
      open counter; open number [k] succeeds (and the writes through it go
      through) iff [io_ok env k];
    - [uint_fast32_t] ([n_type]) is an unsigned integer of [w] bits, its
      arithmetic is taken modulo [2^w] ([wrap]);
    - observable effects are recorded in a trace: sleeps, messages on the
      error stream, the contents written to a detail file, and the blocks
      appended to the summary log [CycleLog/Iteration.txt]. Console output
      on [std::cout] is not recorded.
    Loops run on fuel; [None] means the fuel ran out (the loop had not
    finished). *)

From Stdlib Require Import ZArith List String Ascii Bool Lia.
Import ListNotations.
Open Scope Z_scope.

Module Bench.

(** ** Data *)

(** Lines of a detail file.
    [Paused ms]            : "Paused for <ms>ms"
    [Progress c n i t]     : "Cycle <c> of <n> Iteration <i> <datetime t>"
    [IterLine it s e]      : "Iterations <it> Start <datetime s> ... End <datetime e>"
    Date-times are kept as the [time_t] second they render. *)
Inductive line :=
| Paused (ms : Z)
| Progress (cycle cycles i t : Z)
| IterLine (iterations start end_ : Z).

(** Blocks appended to the summary log. *)
Inductive sblock :=
| SHeader (cycles t : Z)
| SCycle (cycle start iterations end_ : Z)
| SFinal (sum cycles start end_ avg days hours minutes seconds ms : Z).

(** Detail-file name "T <fileTimestamp> <cycles> - <cycle>.txt". *)
Record fname := mkFname { fn_ts : Z; fn_cycles : Z; fn_cycle : Z }.

Inductive event :=
| Sleep (ms : Z)
| Cerr (msg : string)
| DetailWrite (name : fname) (contents : list line)
| SummaryAppend (b : sblock).

Record Env := mkEnv {
  steady : nat -> Z;
  system : nat -> Z;
  io_ok : nat -> bool;
  dirs_ok : bool
}.

Record St := mkSt { reads : nat; opens : nat; trace : list event }.

(** ** The monad *)

Definition M (A : Type) := St -> option (A * St).

Definition ret {A} (a : A) : M A := fun s => Some (a, s).
Definition bind {A B} (m : M A) (k : A -> M B) : M B :=
  fun s => match m s with Some (a, s') => k a s' | None => None end.
Definition out_of_fuel {A} : M A := fun _ => None.

Notation "x <- m ; k" := (bind m (fun x => k))
  (at level 60, m at next level, right associativity).
Notation "' p <- m ; k" := (bind m (fun x => match x with p => k end))
  (at level 60, p pattern, m at next level, right associativity).
Notation "m ;; k" := (bind m (fun _ => k))
  (at level 60, right associativity).

Definition emit (e : event) : M unit :=
  fun s => Some (tt, mkSt (reads s) (opens s) (trace s ++ [e])).

Section Program.

Variable env : Env.
(** Width of [n_type] = [uint_fast32_t] (64 on x86-64 Linux, 32 on i386). *)
Variable w : Z.

Definition wrap (x : Z) : Z := x mod 2 ^ w.

(** *** Clock and file primitives *)

Definition now_system : M Z :=
  fun s => Some (system env (reads s), mkSt (S (reads s)) (opens s) (trace s)).
Definition now_steady : M Z :=
  fun s => Some (steady env (reads s), mkSt (S (reads s)) (opens s) (trace s)).
Definition open_file : M bool :=
  fun s => Some (io_ok env (opens s), mkSt (reads s) (S (opens s)) (trace s)).

Definition sleep_for (ms : Z) : M unit := emit (Sleep ms).

(** [system_clock::to_time_t]: whole seconds. *)
Definition to_time_t (t : Z) : Z := t / 1000.
(** [tm_sec] of [localtime_r] (time zones are offsets of whole minutes). *)
Definition sec_of_minute (t : Z) : Z := to_time_t t mod 60.

Definition getCurrentSecond : M Z :=
  t <- now_system; ret (sec_of_minute t).
(** The detail-file name of the code formats this second with
    ["%Y%m%d_%I_%M_%S"] (12-hour clock); the model keeps the second itself. *)
Definition getFileTimestamp : M Z :=
  t <- now_system; ret (to_time_t t).

(** [std::ofstream f(path); if (f.is_open()) f << ...] and
    [std::ofstream f(path, std::ios::app); f << ...]: when the open fails
    the stream is in a failed state and the writes do nothing. *)
Definition write_detail (n : fname) (buf : list line) : M unit :=
  ok <- open_file; if ok then emit (DetailWrite n buf) else ret tt.
Definition append_summary (b : sblock) : M unit :=
  ok <- open_file; if ok then emit (SummaryAppend b) else ret tt.


(** The first block of a run: the stream is opened before
    [dateTimeToString(system_clock::now())] is evaluated. *)
Definition append_header (cycles : Z) : M unit :=
  ok <- open_file;
  t <- now_system;
  if ok then emit (SummaryAppend (SHeader cycles (to_time_t t))) else ret tt.

(** *** Alignment pause *)

(** program.cxx, step 7:
<<
    n_type pauseMs = getCurrentSecond() * 100u;
    while(true) {
        int currentSec = getCurrentSecond();
        if(currentSec % 8u != 0u) break;
        buffer << "Paused for " << pauseMs << "ms\n";
        sleep_for(milliseconds(pauseMs));
        pauseMs = getCurrentSecond() * 100u;
    }
>>
    [pause_v1 fuel pauseMs buf] is the [while] loop. *)
Fixpoint pause_v1 (fuel : nat) (pauseMs : Z) (buf : list line) : M (list line) :=
  match fuel with
  | O => out_of_fuel
  | S f =>
      currentSec <- getCurrentSecond;
      if negb (currentSec mod 8 =? 0) then ret buf
      else
        sleep_for pauseMs;;
        s <- getCurrentSecond;
        pause_v1 f (wrap (s * 100)) (buf ++ [Paused pauseMs])
  end.

Definition alignment_pause_v1 (fuel : nat) : M (list line) :=
  s <- getCurrentSecond;
  pause_v1 fuel (wrap (s * 100)) [].

(** program_optimized.cxx, step 7:
<<
    localtime_r(now) -> localTm;
    while(localTm.tm_sec % 8 == 0) {
        n_type pauseMs = localTm.tm_sec * 100u;
        buffer << "Paused for " << pauseMs << "ms\n";
        sleep_for(milliseconds(pauseMs));
        localtime_r(now) -> localTm;
    }
>> *)
Fixpoint pause_v2 (fuel : nat) (tm_sec : Z) (buf : list line) : M (list line) :=
  match fuel with
  | O => out_of_fuel
  | S f =>
      if tm_sec mod 8 =? 0 then
        let pauseMs := wrap (tm_sec * 100) in
        sleep_for pauseMs;;
        t <- now_system;
        pause_v2 f (sec_of_minute t) (buf ++ [Paused pauseMs])
      else ret buf
  end.

Definition alignment_pause_v2 (fuel : nat) : M (list line) :=
  t <- now_system;
  pause_v2 fuel (sec_of_minute t) [].

(** *** Timed counting loop *)

(** program.cxx, step 9:
<<
    while(currentSecond == startSecond) {
        iterations = i + 1u;
        ++i;
        if((i % 100000u) == 0u) {
            currentSecond = getCurrentSecond();
            buffer << "Cycle " << cycle << " of " << cycles
                   << " Iteration " << i << " " << dateTimeToString(now()) << "\n";
        }
        currentSecond = getCurrentSecond();
    }
>>
    Returns the final [iterations] and the buffer. *)
Fixpoint count_v1 (fuel : nat) (cycle cycles startSecond currentSecond i iterations : Z)
    (buf : list line) : M (Z * list line) :=
  match fuel with
  | O => out_of_fuel
  | S f =>
      if currentSecond =? startSecond then
        let iterations' := wrap (i + 1) in
        let i' := wrap (i + 1) in
        buf' <- (if i' mod 100000 =? 0 then
                   _ <- getCurrentSecond;
                   t <- now_system;
                   ret (buf ++ [Progress cycle cycles i' (to_time_t t)])
                 else ret buf);
        cs <- getCurrentSecond;
        count_v1 f cycle cycles startSecond cs i' iterations' buf'
      else ret (iterations, buf)
  end.

(** program_optimized.cxx, step 9:
<<
    while(steady_clock::now() < endTp) {
        iterations = i + 1u;
        ++i;
        if((i % 100000u) == 0u)
            buffer << "Cycle " << cycle << " of " << cycles
                   << " Iteration " << i << " " << dateTimeToString(system_clock::now()) << "\n";
    }
>> *)
Fixpoint count_v2 (fuel : nat) (cycle cycles endTp i iterations : Z)
    (buf : list line) : M (Z * list line) :=
  match fuel with
  | O => out_of_fuel
  | S f =>
      now <- now_steady;
      if now <? endTp then
        let iterations' := wrap (i + 1) in
        let i' := wrap (i + 1) in
        buf' <- (if i' mod 100000 =? 0 then
                   t <- now_system;
                   ret (buf ++ [Progress cycle cycles i' (to_time_t t)])
                 else ret buf);
        count_v2 f cycle cycles endTp i' iterations' buf'
      else ret (iterations, buf)
  end.

(** *** One cycle *)

(** Body of the [for] loop of program.cxx (steps 7 to 10); returns the
    cycle's [iterations], which the caller adds to [sumOfIterations]. *)
Definition cycle_v1 (fuel : nat) (cycles cycle : Z) : M Z :=
  ts <- getFileTimestamp;
  let name := mkFname ts cycles cycle in
  buf <- alignment_pause_v1 fuel;
  _ <- now_system;
  startTp <- now_system;
  startSecond <- getCurrentSecond;
  '(iterations, buf) <- count_v1 fuel cycle cycles startSecond startSecond 0 0 buf;
  endTp <- now_system;
  let startStr := to_time_t startTp in
  let endStr := to_time_t endTp in
  write_detail name (buf ++ [IterLine iterations startStr endStr]);;
  append_summary (SCycle cycle startStr iterations endStr);;
  ret iterations.

(** Body of the [for] loop of program_optimized.cxx: the window ends at
    [steady_clock::now() + 1s] taken once before the loop. *)
Definition cycle_v2 (fuel : nat) (cycles cycle : Z) : M Z :=
  ts <- getFileTimestamp;
  let name := mkFname ts cycles cycle in
  buf <- alignment_pause_v2 fuel;
  _ <- now_system;
  startTp <- now_steady;
  let endTp := startTp + 1000 in
  st <- now_system;
  let startStr := to_time_t st in
  '(iterations, buf) <- count_v2 fuel cycle cycles endTp 0 0 buf;
  realEndSys <- now_system;
  let endStr := to_time_t realEndSys in
  write_detail name (buf ++ [IterLine iterations startStr endStr]);;
  append_summary (SCycle cycle startStr iterations endStr);;
  ret iterations.

(** [for(n_type cycle = 1u; cycle <= cycles; ++cycle) { ...; sumOfIterations += iterations; }] *)
Fixpoint cycle_loop (fuel : nat) (body : Z -> M Z) (cycles cycle sum : Z) : M Z :=
  match fuel with
  | O => out_of_fuel
  | S f =>
      if cycle <=? cycles then
        it <- body cycle;
        cycle_loop f body cycles (wrap (cycle + 1)) (wrap (sum + it))
      else ret sum
  end.

(** *** Reading the cycle count *)

(** [std::cin >> cycles] for the unsigned [n_type], as libstdc++'s
    [num_get] does it: skip white space (if only white space is left the
    sentry fails, sets failbit and eofbit, and [cycles] keeps its value);
    an optional sign, then decimal digits; no digit gives 0 and failbit; a
    magnitude above the maximum gives the maximum and failbit; otherwise the
    value, negated modulo [2^w] after a minus sign. eofbit is set when the
    digits run to the end of the input. Result: (value, failbit, eofbit). *)
Definition is_space (c : ascii) : bool :=
  match nat_of_ascii c with
  | 32 | 9 | 10 | 11 | 12 | 13 => true
  | _ => false
  end%nat.

Fixpoint skip_ws (s : string) : string :=
  match s with
  | EmptyString => EmptyString
  | String c r => if is_space c then skip_ws r else s
  end.

Definition digit_val (c : ascii) : option Z :=
  let n := nat_of_ascii c in
  if (48 <=? n)%nat && (n <=? 57)%nat then Some (Z.of_nat n - 48) else None.

Fixpoint scan_digits (maxv : Z) (s : string) (acc : Z) (ovf : bool) (nd : nat)
    : Z * bool * nat * string :=
  match s with
  | EmptyString => (acc, ovf, nd, EmptyString)
  | String c r =>
      match digit_val c with
      | Some d =>
          let acc' := acc * 10 + d in
          if ovf || (maxv <? acc') then scan_digits maxv r acc true (S nd)
          else scan_digits maxv r acc' false (S nd)
      | None => (acc, ovf, nd, s)
      end
  end.

Definition extract_n_type (old : Z) (s : string) : Z * bool * bool :=
  match skip_ws s with
  | EmptyString => (old, true, true)
  | String c r =>
      let neg := Ascii.eqb c "-"%char in
      let rest := if neg || Ascii.eqb c "+"%char then r else String c r in
      let '(acc, ovf, nd, remaining) := scan_digits (2 ^ w - 1) rest 0 false 0 in
      let eof := match remaining with EmptyString => true | _ => false end in
      if (nd =? 0)%nat then (0, true, eof)
      else if ovf then (2 ^ w - 1, true, eof)
      else ((if neg then wrap (- acc) else acc), false, eof)
  end.

(** Step 5:
<<
    n_type cycles = 1u;
    std::cin >> cycles;
    if(!std::cin.good() || cycles < 1) {
        std::cerr << "Invalid input; defaulting to 1.\n";
        cycles = 1u;
    }
>> *)
Definition read_cycles (input : string) : M Z :=
  let '(v, fail, eof) := extract_n_type 1 input in
  let good := negb fail && negb eof in
  if negb good || (v <? 1) then
    emit (Cerr "Invalid input; defaulting to 1.");; ret 1
  else ret v.

(** *** Final summary *)

(** Step 11, [long long] arithmetic (C++ [/] and [%] truncate). *)
Definition breakdown (totalMs : Z) : Z * Z * Z * Z * Z :=
  let days := Z.quot totalMs (1000 * 60 * 60 * 24) in
  let rem := Z.rem totalMs (1000 * 60 * 60 * 24) in
  let hours := Z.quot rem (1000 * 60 * 60) in
  let rem := Z.rem rem (1000 * 60 * 60) in
  let minutes := Z.quot rem (1000 * 60) in
  let rem := Z.rem rem (1000 * 60) in
  let seconds := Z.quot rem 1000 in
  let ms := Z.rem rem 1000 in
  (days, hours, minutes, seconds, ms).

(** [n_type avgOpsPerSec = (cycles > 0) ? (sumOfIterations / cycles) : 0;]
    (unsigned division). *)
Definition avg_ops (sum cycles : Z) : Z :=
  if 0 <? cycles then sum / cycles else 0.

(** *** main *)

(** [main] of both programs, for the cycle body [cycle_body cycles cycle].
    [dirs_ok env] is the outcome of the [fs::exists] checks after both
    [fs::create_directories] calls have returned; the case where
    [create_directories] cannot create a directory, throws and (uncaught)
    terminates the program is not modelled. The elapsed time [cycleEndTime - cycleStartTime] goes through a
    [duration<double>] before the cast to milliseconds; here it is the exact
    difference of the millisecond readings. *)
Definition run_main (cycle_body : Z -> Z -> M Z) (fuel : nat) (input : string) : M Z :=
  if negb (dirs_ok env) then
    emit (Cerr "Directories do not exist");; ret 1
  else
    cycles <- read_cycles input;
    append_header cycles;;
    cycleStartTime <- now_system;
    sum <- cycle_loop fuel (cycle_body cycles) cycles 1 0;
    cycleEndTime <- now_system;
    let totalMs := cycleEndTime - cycleStartTime in
    let '(days, hours, minutes, seconds, ms) := breakdown totalMs in
    let avg := avg_ops sum cycles in
    append_summary (SFinal sum cycles (to_time_t cycleStartTime) (to_time_t cycleEndTime)
                      avg days hours minutes seconds ms);;
    ret 0.

Definition main_v1 (fuel : nat) (input : string) : M Z :=
  run_main (cycle_v1 fuel) fuel input.
Definition main_v2 (fuel : nat) (input : string) : M Z :=
  run_main (cycle_v2 fuel) fuel input.

End Program.
(** ** Auxiliary definitions *)

Fixpoint mapM {A B} (f : A -> M B) (l : list A) : M (list B) :=
  match l with
  | [] => ret []
  | x :: l' => b <- f x; bs <- mapM f l'; ret (b :: bs)
  end.

(** [seqZ a n = [a; a+1; ...; a+n-1]]. *)
Fixpoint seqZ (a : Z) (n : nat) : list Z :=
  match n with
  | O => []
  | S n' => a :: seqZ (a + 1) n'
  end.

Definition sumZ (l : list Z) : Z := fold_right Z.add 0 l.


(** Number of passes among the first [j] of a counting loop that write a
    progress line ([i % 100000 == 0] after [++i], with [i] an [n_type]). *)
Fixpoint nprog (w : Z) (j : nat) : nat :=
  match j with
  | O => O
  | S j' => (nprog w j' + if (wrap w (Z.of_nat j) mod 100000 =? 0)%Z then 1 else 0)%nat
  end.

(** The progress lines written by the first [p] passes; [tm m] is the
    date-time read during pass [m]. *)
Fixpoint prog_lines (w : Z) (tm : nat -> Z) (cycle cycles : Z) (p : nat) : list line :=
  match p with
  | O => []
  | S j =>
      prog_lines w tm cycle cycles j ++
      (if wrap w (Z.of_nat p) mod 100000 =? 0
       then [Progress cycle cycles (wrap w (Z.of_nat p)) (tm p)] else [])
  end.

(** Read indices of the counting loops, relative to the read counter [k0]
    at loop entry. program_optimized.cxx: pass [q+1] starts with the
    steady read number [k0 + q + nprog q], and the progress date-time of
    pass [m] is read right after its steady read. program.cxx: pass [m] ends
    with the second-of-minute sample number [chk1 k0 m], and its progress
    date-time is read between two samples. *)
Definition steady_idx (w : Z) (k0 q : nat) : nat := (k0 + q + nprog w q)%nat.
Definition tm2 (env : Env) (w : Z) (k0 : nat) (m : nat) : Z :=
  to_time_t (system env (k0 + m + nprog w (pred m))).
Definition chk1 (w : Z) (k0 q : nat) : nat := (k0 + q + 2 * nprog w q - 1)%nat.
Definition tm1 (env : Env) (w : Z) (k0 : nat) (m : nat) : Z :=
  to_time_t (system env (k0 + m + 2 * nprog w (pred m))).

(** Events of one cycle: the pause sleeps, then (if its open succeeds) the
    detail file with the pause lines, the progress lines and the
    [Iterations] line, then (if its open succeeds) the summary-log block. *)
Definition cycle_events (cycle cycles fts : Z) (pauses : list Z) (prog : list line)
    (it s e : Z) (ok1 ok2 : bool) : list event :=
  map Sleep pauses ++
  (if ok1 then [DetailWrite (mkFname fts cycles cycle)
                  (map Paused pauses ++ prog ++ [IterLine it s e])] else []) ++
  (if ok2 then [SummaryAppend (SCycle cycle s it e)] else []).

(** The same clocks and directories with the outcome of each file open
    given by [f]. *)
Definition set_io (env : Env) (f : nat -> bool) : Env :=
  mkEnv (steady env) (system env) f (dirs_ok env).

Definition is_file_event (e : event) : bool :=
  match e with
  | DetailWrite _ _ | SummaryAppend _ => true
  | _ => false
  end.

Definition is_cerr (e : event) : bool :=
  match e with Cerr _ => true | _ => false end.

(** A trace without its file contents: sleeps and error-stream messages. *)
Definition erase (tr : list event) : list event :=
  filter (fun e => negb (is_file_event e)) tr.

(** Two states that agree on everything but the files. *)
Definition st_rel (s1 s2 : St) : Prop :=
  reads s1 = reads s2 /\ opens s1 = opens s2 /\ erase (trace s1) = erase (trace s2).

(** A computation whose result and non-file effects do not depend on the
    outcome of the file opens. *)
Definition io_indep {A} (m : Env -> M A) : Prop :=
  forall env f s1 s2 a s1',
    st_rel s1 s2 -> m env s1 = Some (a, s1') ->
    exists s2', m (set_io env f) s2 = Some (a, s2') /\ st_rel s1' s2'.

(** ** Concrete clocks *)

(** Both clocks advance 100 ms per reading; the wall clock starts at
    1.5 s past a minute boundary; every open succeeds. *)
Definition env_demo : Env :=
  mkEnv (fun k => 100 * Z.of_nat k) (fun k => 1500 + 100 * Z.of_nat k)
        (fun _ => true) true.

Definition st0 : St := mkSt 0 0 [].

(** A wall clock read at 7.999 s, 8.000 s, 8.800 s and then from 9.8 s on. *)
Definition env_pause : Env :=
  mkEnv (fun k => 100 * Z.of_nat k)
        (fun k => match k with
                  | O => 7999 | 1%nat => 8000 | 2%nat => 8800
                  | _ => 9500 + 100 * Z.of_nat k end)
        (fun _ => true) true.

(** [env_demo] where open number 1 (the detail file of cycle 1) fails. *)
Definition env_detail_fail : Env := set_io env_demo (fun k => negb (Nat.eqb k 1)).


(** Standard-input lines typed at the prompt, each ended by a newline. *)
Definition nl : string := String (ascii_of_nat 10) EmptyString.
Definition input_2 : string := String.append "2" nl.
Definition input_0 : string := String.append "0" nl.
Definition input_abc : string := String.append "abc" nl.
Definition input_minus1 : string := String.append "-1" nl.
Definition input_max : string := String.append "18446744073709551615" nl.

(** The records of one cycle started in state [st] and ended in [st'] with
    [it] iterations: the sleeps of the pause, the detail file (pause lines,
    progress lines at the multiples of 100,000, [Iterations] line) and the
    summary block, each file written if its open succeeds; [it] is the
    number of passes [p] modulo [2^w]. *)
Definition cycle_shape (env : Env) (w cycles cycle : Z) (st : St) (it : Z) (st' : St) : Prop :=
  exists fts pauses p tm s e, it = wrap w (Z.of_nat p) /\
    trace st' = trace st ++ cycle_events cycle cycles fts pauses
                  (prog_lines w tm cycle cycles p) it s e
                  (io_ok env (opens st)) (io_ok env (S (opens st))) /\
    opens st' = S (S (opens st)).

(** ** Input text *)

(** The characters [cs] followed by the string [s]. *)
Fixpoint with_prefix (cs : list ascii) (s : string) : string :=
  match cs with
  | [] => s
  | c :: r => String c (with_prefix r s)
  end.

Definition is_digit (c : ascii) : bool :=
  match digit_val c with Some _ => true | None => false end.

Definition digit_step (a : Z) (c : ascii) : Z := a * 10 + (Z.of_nat (nat_of_ascii c) - 48).

(** Value of a list of decimal digits. *)
Definition digits_value (ds : list ascii) : Z := fold_left digit_step ds 0.

(** [s] is empty or does not start with a digit. *)
Definition starts_non_digit (s : string) : bool :=
  match s with EmptyString => true | String c _ => negb (is_digit c) end.

Definition invalid_msg : string := "Invalid input; defaulting to 1.".

(** ** General lemmas *)

Lemma bind_Some {A B} (m : M A) (k : A -> M B) s b s' :
  bind m k s = Some (b, s') ->
  exists a s1, m s = Some (a, s1) /\ k a s1 = Some (b, s').
Proof.
  unfold bind. destruct (m s) as [[a s1]|]; [|discriminate]. eauto.
Qed.

Lemma wrap_small w x : 0 <= x < 2 ^ w -> wrap w x = x.
Proof. intros. unfold wrap. apply Z.mod_small; lia. Qed.

Lemma wrap_range w x : 0 < w -> 0 <= wrap w x < 2 ^ w.
Proof.
  intros. unfold wrap. apply Z.mod_pos_bound. apply Z.pow_pos_nonneg; lia.
Qed.

Section Loop.
Variables (env : Env) (w : Z).
Hypothesis w_pos : 0 < w.

(** The cycle loop started at [c] with [n] cycles left runs the body at
    [c], ..., [c+n-1] and sums their results modulo [2^w]. *)
Lemma cycle_loop_runs (body : Z -> M Z) :
  forall n fuel c s st,
    0 <= c -> c + Z.of_nat n <= 2 ^ w - 1 -> 0 <= s < 2 ^ w -> (n < fuel)%nat ->
    cycle_loop w fuel body (c + Z.of_nat n - 1) c s st =
    match mapM body (seqZ c n) st with
    | Some (its, st') => Some (wrap w (s + sumZ its), st')
    | None => None
    end.
Proof.
  induction n as [|n IH]; intros fuel c s st Hc Hn Hs Hf;
    (destruct fuel as [|f]; [lia|]); cbn [cycle_loop mapM seqZ].
  - replace (c <=? c + Z.of_nat 0 - 1) with false by (symmetry; apply Z.leb_gt; lia).
    unfold ret. simpl. rewrite Z.add_0_r, wrap_small; auto.
  - replace (c <=? c + Z.of_nat (S n) - 1) with true by (symmetry; apply Z.leb_le; lia).
    unfold bind at 1 2. destruct (body c st) as [[b st1]|]; [|reflexivity].
    rewrite (wrap_small w (c + 1)) by lia.
    replace (c + Z.of_nat (S n) - 1) with (c + 1 + Z.of_nat n - 1) by lia.
    rewrite IH by (try apply wrap_range; lia).
    unfold bind, ret. destruct (mapM body (seqZ (c + 1) n) st1) as [[bs st2]|]; [|reflexivity].
    simpl. f_equal. f_equal. unfold wrap.
    rewrite Zplus_mod_idemp_l. f_equal. ring.
Qed.

(** With [cycles = 2^w - 1] the condition [cycle <= cycles] holds for every
    [n_type] value, so the loop never leaves. *)
Lemma cycle_loop_max_never_ends (body : Z -> M Z) :
  forall fuel c s st, 0 <= c < 2 ^ w ->
    cycle_loop w fuel body (2 ^ w - 1) c s st = None.
Proof.
  induction fuel as [|f IH]; intros c s st Hc; simpl; [reflexivity|].
  replace (c <=? 2 ^ w - 1) with true by (symmetry; apply Z.leb_le; lia).
  unfold bind. destruct (body c st) as [[b st1]|]; [|reflexivity].
  apply IH. apply wrap_range; lia.
Qed.

End Loop.

Lemma wrap_succ w x : wrap w (wrap w x + 1) = wrap w (x + 1).
Proof. unfold wrap. apply Zplus_mod_idemp_l. Qed.

Lemma wrap_of_nat_succ w j : wrap w (wrap w (Z.of_nat j) + 1) = wrap w (Z.of_nat (S j)).
Proof. rewrite wrap_succ. f_equal. lia. Qed.

Section Counting.
Variables (env : Env) (w : Z).

(** program_optimized.cxx: the counting loop, after [j] passes. *)
Lemma count_v2_spec cycle cycles endTp k0 buf0 :
  forall fuel j buf st it buf' st',
    reads st = steady_idx w k0 j ->
    buf = buf0 ++ prog_lines w (tm2 env w k0) cycle cycles j ->
    count_v2 env w fuel cycle cycles endTp (wrap w (Z.of_nat j)) (wrap w (Z.of_nat j)) buf st
      = Some ((it, buf'), st') ->
    exists p, (j <= p)%nat /\ it = wrap w (Z.of_nat p) /\
      (forall q, (j <= q < p)%nat -> steady env (steady_idx w k0 q) < endTp) /\
      endTp <= steady env (steady_idx w k0 p) /\
      buf' = buf0 ++ prog_lines w (tm2 env w k0) cycle cycles p /\
      st' = mkSt (S (steady_idx w k0 p)) (opens st) (trace st).
Proof.
  induction fuel as [|f IH]; intros j buf st it buf' st' Hr Hb H; [discriminate|].
  cbn [count_v2] in H. unfold bind at 1, now_steady in H. cbn beta iota in H.
  destruct (Z.ltb_spec (steady env (reads st)) endTp) as [Hlt|Hge].
  - rewrite wrap_of_nat_succ in H.
    destruct (wrap w (Z.of_nat (S j)) mod 100000 =? 0) eqn:Em.
    + unfold bind, now_system, ret in H. cbn beta iota in H. cbn [reads opens trace] in H.
      apply IH in H as (p & Hp & Hit & Hq & Hend & Hbuf & Hst).
      * exists p. split; [lia|]. split; [exact Hit|]. split.
        { intros q Hq'. destruct (Nat.eq_dec q j) as [->|]; [rewrite <- Hr; exact Hlt|].
          apply Hq. lia. }
        split; [exact Hend|]. split; [exact Hbuf|]. rewrite Hst. reflexivity.
      * cbn [reads]. rewrite Hr. unfold steady_idx. cbn [nprog]. rewrite Em. lia.
      * rewrite Hb. cbn [prog_lines]. rewrite Em, <- app_assoc. do 3 f_equal.
        unfold tm2. cbn [pred]. rewrite Hr. unfold steady_idx. do 2 f_equal. apply f_equal. lia.
    + unfold bind, ret in H. cbn beta iota in H.
      apply IH in H as (p & Hp & Hit & Hq & Hend & Hbuf & Hst).
      * exists p. split; [lia|]. split; [exact Hit|]. split.
        { intros q Hq'. destruct (Nat.eq_dec q j) as [->|]; [rewrite <- Hr; exact Hlt|].
          apply Hq. lia. }
        split; [exact Hend|]. split; [exact Hbuf|]. rewrite Hst. reflexivity.
      * cbn [reads]. rewrite Hr. unfold steady_idx. cbn [nprog]. rewrite Em. lia.
      * rewrite Hb. cbn [prog_lines]. rewrite Em, app_nil_r. reflexivity.
  - unfold ret in H. injection H as <- <- <-.
    exists j. split; [lia|]. split; [reflexivity|]. split; [intros; lia|].
    split; [rewrite <- Hr; lia|]. split; [exact Hb|]. rewrite <- Hr. reflexivity.
Qed.

(** program.cxx: the counting loop, after [j] passes; [cs] is the last
    second-of-minute sample, [ss] the one taken at the start. *)
Lemma count_v1_spec cycle cycles ss k0 buf0 :
  forall fuel j cs buf st it buf' st',
    reads st = (k0 + j + 2 * nprog w j)%nat ->
    buf = buf0 ++ prog_lines w (tm1 env w k0) cycle cycles j ->
    count_v1 env w fuel cycle cycles ss cs (wrap w (Z.of_nat j)) (wrap w (Z.of_nat j)) buf st
      = Some ((it, buf'), st') ->
    exists p, (j <= p)%nat /\ it = wrap w (Z.of_nat p) /\
      (p = j -> cs <> ss) /\
      ((j < p)%nat -> cs = ss /\
         (forall q, (j < q < p)%nat -> sec_of_minute (system env (chk1 w k0 q)) = ss) /\
         sec_of_minute (system env (chk1 w k0 p)) <> ss) /\
      buf' = buf0 ++ prog_lines w (tm1 env w k0) cycle cycles p /\
      st' = mkSt (k0 + p + 2 * nprog w p) (opens st) (trace st).
Proof.
  induction fuel as [|f IH]; intros j cs buf st it buf' st' Hr Hb H; [discriminate|].
  cbn [count_v1] in H.
  destruct (Z.eqb_spec cs ss) as [Heq|Hne].
  - rewrite wrap_of_nat_succ in H.
    destruct (wrap w (Z.of_nat (S j)) mod 100000 =? 0) eqn:Em.
    + unfold bind, getCurrentSecond, now_system, ret in H. cbn beta iota in H.
      cbn [reads opens trace] in H.
      assert (Hchk : chk1 w k0 (S j) = S (S (reads st)))
        by (unfold chk1; cbn [nprog]; rewrite Em, Hr; lia).
      apply IH in H as (p & Hp & Hit & Hpj & Hlt & Hbuf & Hst).
      * exists p. split; [lia|]. split; [exact Hit|]. split; [intros; lia|].
        split.
        { intros _. split; [exact Heq|].
          destruct (Nat.eq_dec p (S j)) as [->|Hpn].
          - split; [intros; lia|]. rewrite Hchk. apply Hpj. reflexivity.
          - destruct Hlt as (Hcs & Hq & Hend); [lia|].
            split; [|exact Hend].
            intros q Hq'. destruct (Nat.eq_dec q (S j)) as [->|].
            + rewrite Hchk. exact Hcs.
            + apply Hq. lia. }
        split; [exact Hbuf|]. rewrite Hst. reflexivity.
      * cbn [reads]. rewrite Hr. cbn [nprog]. rewrite Em. lia.
      * rewrite Hb. cbn [prog_lines]. rewrite Em, <- app_assoc. do 3 f_equal.
        unfold tm1. cbn [pred]. rewrite Hr. do 2 f_equal. apply f_equal. cbn [reads]. lia.
    + unfold bind, getCurrentSecond, now_system, ret in H. cbn beta iota in H.
      cbn [reads opens trace] in H.
      assert (Hchk : chk1 w k0 (S j) = reads st)
        by (unfold chk1; cbn [nprog]; rewrite Em, Hr; lia).
      apply IH in H as (p & Hp & Hit & Hpj & Hlt & Hbuf & Hst).
      * exists p. split; [lia|]. split; [exact Hit|]. split; [intros; lia|].
        split.
        { intros _. split; [exact Heq|].
          destruct (Nat.eq_dec p (S j)) as [->|Hpn].
          - split; [intros; lia|]. rewrite Hchk. apply Hpj. reflexivity.
          - destruct Hlt as (Hcs & Hq & Hend); [lia|].
            split; [|exact Hend].
            intros q Hq'. destruct (Nat.eq_dec q (S j)) as [->|].
            + rewrite Hchk. exact Hcs.
            + apply Hq. lia. }
        split; [exact Hbuf|]. rewrite Hst. reflexivity.
      * cbn [reads]. rewrite Hr. cbn [nprog]. rewrite Em. lia.
      * rewrite Hb. cbn [prog_lines]. rewrite Em, app_nil_r. reflexivity.
  - unfold ret in H. injection H as <- <- <-.
    exists j. split; [lia|]. split; [reflexivity|]. split; [intros; exact Hne|].
    split; [intros; lia|]. split; [exact Hb|]. rewrite <- Hr. destruct st; reflexivity.
Qed.

Lemma pause_v1_spec :
  forall fuel pm buf st buf' st',
    pause_v1 env w fuel pm buf st = Some (buf', st') ->
    exists ps, buf' = buf ++ map Paused ps /\
      trace st' = trace st ++ map Sleep ps /\ opens st' = opens st.
Proof.
  induction fuel as [|f IH]; intros pm buf st buf' st' H; [discriminate|].
  cbn [pause_v1] in H.
  unfold bind at 1, getCurrentSecond, bind at 1, now_system, ret at 1 in H.
  cbn beta iota in H.
  destruct (negb _).
  - unfold ret in H. injection H as <- <-. exists []. rewrite !app_nil_r. auto.
  - unfold bind, sleep_for, emit, getCurrentSecond, now_system, ret in H.
    cbn beta iota in H. apply IH in H as (ps & -> & Htr & Hop).
    exists (pm :: ps). rewrite <- app_assoc. split; [reflexivity|].
    rewrite Htr, Hop. cbn [trace opens]. rewrite <- app_assoc. auto.
Qed.

Lemma pause_v2_spec :
  forall fuel sec buf st buf' st',
    pause_v2 env w fuel sec buf st = Some (buf', st') ->
    exists ps, buf' = buf ++ map Paused ps /\
      trace st' = trace st ++ map Sleep ps /\ opens st' = opens st.
Proof.
  induction fuel as [|f IH]; intros sec buf st buf' st' H; [discriminate|].
  cbn [pause_v2] in H.
  destruct (sec mod 8 =? 0).
  - unfold bind, sleep_for, emit, now_system, ret in H.
    cbn beta iota in H. apply IH in H as (ps & -> & Htr & Hop).
    exists (wrap w (sec * 100) :: ps). rewrite <- app_assoc. split; [reflexivity|].
    rewrite Htr, Hop. cbn [trace opens]. rewrite <- app_assoc. auto.
  - unfold ret in H. injection H as <- <-. exists []. rewrite !app_nil_r. auto.
Qed.

Lemma count_v1_run cycle cycles ss fuel buf st it buf' st' :
  count_v1 env w fuel cycle cycles ss ss 0 0 buf st = Some ((it, buf'), st') ->
  exists p, (1 <= p)%nat /\ it = wrap w (Z.of_nat p) /\
    (forall q, (1 <= q < p)%nat -> sec_of_minute (system env (chk1 w (reads st) q)) = ss) /\
    sec_of_minute (system env (chk1 w (reads st) p)) <> ss /\
    buf' = buf ++ prog_lines w (tm1 env w (reads st)) cycle cycles p /\
    st' = mkSt (reads st + p + 2 * nprog w p) (opens st) (trace st).
Proof.
  intros H.
  apply (count_v1_spec cycle cycles ss (reads st) buf fuel 0 ss buf st) in H
    as (p & Hp & Hit & Hpj & Hlt & Hbuf & Hst);
    [| cbn; lia | cbn; rewrite app_nil_r; reflexivity].
  exists p. destruct (Nat.eq_dec p 0) as [->|Hp0]; [exfalso; apply Hpj; reflexivity|].
  destruct Hlt as (_ & Hq & Hend); [lia|].
  split; [lia|]. split; [exact Hit|]. split; [intros q Hq'; apply Hq; lia|].
  auto.
Qed.

Lemma count_v2_run cycle cycles endTp fuel buf st it buf' st' :
  count_v2 env w fuel cycle cycles endTp 0 0 buf st = Some ((it, buf'), st') ->
  exists p, it = wrap w (Z.of_nat p) /\
    (forall q, (q < p)%nat -> steady env (steady_idx w (reads st) q) < endTp) /\
    endTp <= steady env (steady_idx w (reads st) p) /\
    buf' = buf ++ prog_lines w (tm2 env w (reads st)) cycle cycles p /\
    st' = mkSt (S (steady_idx w (reads st) p)) (opens st) (trace st).
Proof.
  intros H.
  apply (count_v2_spec cycle cycles endTp (reads st) buf fuel 0 buf st) in H
    as (p & Hp & Hit & Hq & Hend & Hbuf & Hst);
    [| unfold steady_idx; cbn; lia | cbn; rewrite app_nil_r; reflexivity].
  exists p. split; [exact Hit|]. split; [intros q Hq'; apply Hq; lia|]. auto.
Qed.

Lemma cycle_v1_shape fuel cycles cycle st it st' :
  cycle_v1 env w fuel cycles cycle st = Some (it, st') ->
  exists fts pauses p tm s e, it = wrap w (Z.of_nat p) /\
    trace st' = trace st ++ cycle_events cycle cycles fts pauses
                  (prog_lines w tm cycle cycles p) it s e
                  (io_ok env (opens st)) (io_ok env (S (opens st))) /\
    opens st' = S (S (opens st)).
Proof.
  intros H.
  unfold cycle_v1, write_detail, append_summary, getFileTimestamp, getCurrentSecond in H.
  unfold bind, now_system, now_steady, ret, open_file, emit in H.
  cbn beta iota zeta in H. cbn [reads opens trace] in H.
  match type of H with context [alignment_pause_v1 ?a ?b ?c ?d] =>
    destruct (alignment_pause_v1 a b c d) as [[buf1 s1]|] eqn:Ep; [|discriminate] end.
  match type of H with context [count_v1 ?a ?b ?c ?d ?e ?f ?g ?h ?i ?j ?k] =>
    destruct (count_v1 a b c d e f g h i j k) as [[[it1 buf2] s2]|] eqn:Ec; [|discriminate] end.
  cbn [reads opens trace] in H.
  unfold alignment_pause_v1, getCurrentSecond, bind, now_system, ret in Ep.
  cbn beta iota in Ep.
  apply pause_v1_spec in Ep as (ps & -> & Htr1 & Hop1). cbn [trace opens] in Htr1, Hop1.
  apply count_v1_run in Ec as (p & _ & Hit & _ & _ & -> & ->). cbn [trace opens reads] in H.
  rewrite Hop1 in H.
  destruct (io_ok env (opens st)); cbn beta iota in H; cbn [reads opens trace] in H;
    destruct (io_ok env (S (opens st))); cbn beta iota in H; cbn [reads opens trace] in H;
    injection H as <- <-;
    exists (to_time_t (system env (reads st))), ps, p, (tm1 env w (S (S (S (reads s1))))),
      (to_time_t (system env (S (reads s1)))),
      (to_time_t (system env (S (S (S (reads s1))) + p + 2 * nprog w p)));
    (split; [exact Hit|]);
    cbn [trace opens]; (split; [|rewrite ?Hop1; reflexivity]); rewrite Htr1; unfold cycle_events;
    rewrite ?app_nil_l, ?app_nil_r, <- ?app_assoc; reflexivity.
Qed.

Lemma cycle_v2_shape fuel cycles cycle st it st' :
  cycle_v2 env w fuel cycles cycle st = Some (it, st') ->
  exists fts pauses p tm s e, it = wrap w (Z.of_nat p) /\
    trace st' = trace st ++ cycle_events cycle cycles fts pauses
                  (prog_lines w tm cycle cycles p) it s e
                  (io_ok env (opens st)) (io_ok env (S (opens st))) /\
    opens st' = S (S (opens st)).
Proof.
  intros H.
  unfold cycle_v2, write_detail, append_summary, getFileTimestamp in H.
  unfold bind, now_system, now_steady, ret, open_file, emit in H.
  cbn beta iota zeta in H. cbn [reads opens trace] in H.
  match type of H with context [alignment_pause_v2 ?a ?b ?c ?d] =>
    destruct (alignment_pause_v2 a b c d) as [[buf1 s1]|] eqn:Ep; [|discriminate] end.
  match type of H with context [count_v2 ?a ?b ?c ?d ?e ?f ?g ?h ?i] =>
    destruct (count_v2 a b c d e f g h i) as [[[it1 buf2] s2]|] eqn:Ec; [|discriminate] end.
  cbn [reads opens trace] in H.
  unfold alignment_pause_v2, bind, now_system, ret in Ep.
  cbn beta iota in Ep.
  apply pause_v2_spec in Ep as (ps & -> & Htr1 & Hop1). cbn [trace opens] in Htr1, Hop1.
  apply count_v2_run in Ec as (p & Hit & _ & _ & -> & ->). cbn [trace opens reads] in H.
  rewrite Hop1 in H.
  destruct (io_ok env (opens st)); cbn beta iota in H; cbn [reads opens trace] in H;
    destruct (io_ok env (S (opens st))); cbn beta iota in H; cbn [reads opens trace] in H;
    injection H as <- <-;
    exists (to_time_t (system env (reads st))), ps, p, (tm2 env w (S (S (S (reads s1))))),
      (to_time_t (system env (S (S (reads s1))))),
      (to_time_t (system env (S (steady_idx w (S (S (S (reads s1)))) p))));
    (split; [exact Hit|]);
    cbn [trace opens]; (split; [|rewrite ?Hop1; reflexivity]); rewrite Htr1; unfold cycle_events;
    rewrite ?app_nil_l, ?app_nil_r, <- ?app_assoc; reflexivity.
Qed.
End Counting.

(** ** Independence from the outcome of file writes *)

Lemma st_rel_refl s : st_rel s s.
Proof. unfold st_rel. auto. Qed.

Lemma io_indep_ret {A} (a : A) : io_indep (fun _ => ret a).
Proof.
  intros env f s1 s2 b s1' Hr H. unfold ret in *. injection H as <- <-. eauto.
Qed.

Lemma io_indep_out_of_fuel {A} : io_indep (fun _ => @out_of_fuel A).
Proof. intros env f s1 s2 b s1' Hr H. discriminate. Qed.

Lemma io_indep_bind {A B} (m : Env -> M A) (k : Env -> A -> M B) :
  io_indep m -> (forall a, io_indep (fun e => k e a)) ->
  io_indep (fun e => bind (m e) (k e)).
Proof.
  intros Hm Hk env f s1 s2 b s1' Hr H.
  apply bind_Some in H as (a & s & H1 & H2).
  destruct (Hm env f s1 s2 a s Hr H1) as (s2m & E1 & R1).
  destruct (Hk a env f s s2m b s1' R1 H2) as (s2' & E2 & R2).
  exists s2'. unfold bind. rewrite E1. auto.
Qed.

Lemma io_indep_now_system : io_indep now_system.
Proof.
  intros env f s1 s2 a s1' (Hr & Ho & Ht) H. unfold now_system in *.
  injection H as <- <-. cbn. rewrite Hr. eexists; split; [reflexivity|].
  unfold st_rel; cbn; auto.
Qed.

Lemma io_indep_now_steady : io_indep now_steady.
Proof.
  intros env f s1 s2 a s1' (Hr & Ho & Ht) H. unfold now_steady in *.
  injection H as <- <-. cbn. rewrite Hr. eexists; split; [reflexivity|].
  unfold st_rel; cbn; auto.
Qed.

Lemma erase_app_nonfile tr1 tr2 e :
  erase tr1 = erase tr2 -> is_file_event e = false ->
  erase (tr1 ++ [e]) = erase (tr2 ++ [e]).
Proof.
  intros H He. unfold erase in *. rewrite !filter_app, H. reflexivity.
Qed.

Lemma erase_app_file tr e :
  is_file_event e = true -> erase (tr ++ [e]) = erase tr.
Proof.
  intros He. unfold erase. rewrite filter_app. cbn. rewrite He. cbn. apply app_nil_r.
Qed.

Lemma io_indep_emit e : is_file_event e = false -> io_indep (fun _ => emit e).
Proof.
  intros He env f s1 s2 a s1' (Hr & Ho & Ht) H. unfold emit in *.
  injection H as <- <-. eexists; split; [reflexivity|].
  unfold st_rel; cbn. auto using erase_app_nonfile.
Qed.

Lemma io_indep_sleep_for ms : io_indep (fun _ => sleep_for ms).
Proof. apply io_indep_emit. reflexivity. Qed.

(** Opening a stream and writing a file event or nothing. *)
Lemma io_indep_open_then (ev : event) :
  is_file_event ev = true ->
  io_indep (fun e => ok <- open_file e; if ok then emit ev else ret tt).
Proof.
  intros He env f s1 s2 a s1' (Hr & Ho & Ht) H.
  unfold bind, open_file in *. cbn in *. rewrite <- Ho.
  destruct a.
  destruct (io_ok env (opens s1)); unfold emit, ret in H; injection H as <-;
    destruct (f (opens s1)); unfold emit, ret; eexists; (split; [reflexivity|]);
    unfold st_rel; cbn; rewrite ?erase_app_file by exact He; auto.
Qed.

Lemma io_indep_write_detail n buf : io_indep (fun e => write_detail e n buf).
Proof. apply io_indep_open_then. reflexivity. Qed.

Lemma io_indep_append_summary b : io_indep (fun e => append_summary e b).
Proof. apply io_indep_open_then. reflexivity. Qed.

Lemma io_indep_append_header c : io_indep (fun e => append_header e c).
Proof.
  intros env f s1 s2 a s1' (Hr & Ho & Ht) H.
  unfold append_header, bind, open_file, now_system in *. cbn in *. rewrite <- Ho, <- Hr.
  destruct a.
  destruct (io_ok env (opens s1)); unfold emit, ret in H; injection H as <-;
    destruct (f (opens s1)); unfold emit, ret; eexists; (split; [reflexivity|]);
    unfold st_rel; cbn; rewrite ?erase_app_file by reflexivity; auto.
Qed.

Ltac io_step :=
  match goal with
  | |- io_indep (fun e => if ?c then @?a e else @?b e) => destruct c
  | |- io_indep (fun e => match ?x with pair _ _ => _ end) => destruct x
  | _ => first [ apply io_indep_ret | apply io_indep_out_of_fuel
               | apply io_indep_sleep_for | (apply io_indep_emit; reflexivity)
               | apply io_indep_now_system | apply io_indep_now_steady
               | apply io_indep_write_detail | apply io_indep_append_summary
               | apply io_indep_append_header
               | (apply io_indep_bind; [|intro]) ]
  end.

Section IoLoops.
Variable w : Z.

Lemma io_indep_getCurrentSecond : io_indep getCurrentSecond.
Proof. unfold getCurrentSecond. repeat io_step. Qed.

Lemma io_indep_getFileTimestamp : io_indep getFileTimestamp.
Proof. unfold getFileTimestamp. repeat io_step. Qed.

Lemma io_indep_pause_v1 fuel pm buf : io_indep (fun e => pause_v1 e w fuel pm buf).
Proof.
  revert pm buf. induction fuel as [|f IH]; intros pm buf; cbn [pause_v1].
  - apply io_indep_out_of_fuel.
  - repeat (io_step || apply io_indep_getCurrentSecond || apply IH).
Qed.
Lemma io_indep_pause_v2 fuel sec buf : io_indep (fun e => pause_v2 e w fuel sec buf).
Proof.
  revert sec buf. induction fuel as [|f IH]; intros sec buf; cbn [pause_v2].
  - apply io_indep_out_of_fuel.
  - repeat (io_step || apply IH).
Qed.

Lemma io_indep_count_v1 fuel cycle cycles ss cs i it buf :
  io_indep (fun e => count_v1 e w fuel cycle cycles ss cs i it buf).
Proof.
  revert cs i it buf. induction fuel as [|f IH]; intros cs i it buf; cbn [count_v1].
  - apply io_indep_out_of_fuel.
  - repeat (io_step || apply io_indep_getCurrentSecond || apply IH).
Qed.

Lemma io_indep_count_v2 fuel cycle cycles endTp i it buf :
  io_indep (fun e => count_v2 e w fuel cycle cycles endTp i it buf).
Proof.
  revert i it buf. induction fuel as [|f IH]; intros i it buf; cbn [count_v2].
  - apply io_indep_out_of_fuel.
  - repeat (io_step || apply IH).
Qed.

Lemma io_indep_cycle_v1 fuel cycles cycle : io_indep (fun e => cycle_v1 e w fuel cycles cycle).
Proof.
  unfold cycle_v1, alignment_pause_v1. cbn zeta.
  repeat (io_step || apply io_indep_getCurrentSecond || apply io_indep_getFileTimestamp
          || apply io_indep_pause_v1 || apply io_indep_count_v1).
Qed.

Lemma io_indep_cycle_v2 fuel cycles cycle : io_indep (fun e => cycle_v2 e w fuel cycles cycle).
Proof.
  unfold cycle_v2, alignment_pause_v2. cbn zeta.
  repeat (io_step || apply io_indep_getFileTimestamp
          || apply io_indep_pause_v2 || apply io_indep_count_v2).
Qed.

Lemma io_indep_cycle_loop (body : Env -> Z -> M Z) fuel cycles c s :
  (forall c, io_indep (fun e => body e c)) ->
  io_indep (fun e => cycle_loop w fuel (body e) cycles c s).
Proof.
  intros Hb. revert c s. induction fuel as [|f IH]; intros c s; cbn [cycle_loop].
  - apply io_indep_out_of_fuel.
  - repeat (io_step || apply Hb || apply IH).
Qed.



End IoLoops.


(** ** Error-stream messages *)

Lemma filter_cerr_cycle_events cycle cycles fts pauses prog it s e ok1 ok2 :
  filter is_cerr (cycle_events cycle cycles fts pauses prog it s e ok1 ok2) = [].
Proof.
  unfold cycle_events. rewrite !filter_app.
  assert (Hs : filter is_cerr (map Sleep pauses) = [])
    by (induction pauses; simpl; auto).
  rewrite Hs. destruct ok1, ok2; reflexivity.
Qed.

Lemma cycle_loop_cerr w (body : Z -> M Z) :
  (forall c st it st', body c st = Some (it, st') ->
     filter is_cerr (trace st') = filter is_cerr (trace st)) ->
  forall fuel cycles c sum st r st',
    cycle_loop w fuel body cycles c sum st = Some (r, st') ->
    filter is_cerr (trace st') = filter is_cerr (trace st).
Proof.
  intros Hb. induction fuel as [|f IH]; intros cycles c sum st r st' H;
    cbn [cycle_loop] in H; [discriminate|].
  destruct (c <=? cycles).
  - apply bind_Some in H as (it & st1 & H1 & H2).
    rewrite (IH _ _ _ _ _ _ H2). exact (Hb _ _ _ _ H1).
  - unfold ret in H. injection H as _ <-. reflexivity.
Qed.

Lemma cycle_v1_cerr env w fuel cycles cycle st it st' :
  cycle_v1 env w fuel cycles cycle st = Some (it, st') ->
  filter is_cerr (trace st') = filter is_cerr (trace st).
Proof.
  intros H. apply cycle_v1_shape in H as (fts & ps & p & tm & s & e & _ & -> & _).
  rewrite filter_app, filter_cerr_cycle_events, app_nil_r. reflexivity.
Qed.

Lemma cycle_v2_cerr env w fuel cycles cycle st it st' :
  cycle_v2 env w fuel cycles cycle st = Some (it, st') ->
  filter is_cerr (trace st') = filter is_cerr (trace st).
Proof.
  intros H. apply cycle_v2_shape in H as (fts & ps & p & tm & s & e & _ & -> & _).
  rewrite filter_app, filter_cerr_cycle_events, app_nil_r. reflexivity.
Qed.

(** A cycle count of [2^w - 1] keeps [main] in its cycle loop forever. *)
Lemma run_main_max_never_ends env w (body : Z -> Z -> M Z) fuel input st :
  0 < w -> dirs_ok env = true ->
  read_cycles w input st = Some (2 ^ w - 1, st) ->
  run_main env w body fuel input st = None.
Proof.
  intros Hw Hd Hr.
  assert (H2 : 2 ^ 1 <= 2 ^ w) by (apply Z.pow_le_mono_r; lia).
  unfold run_main. rewrite Hd. cbn [negb].
  unfold bind at 1. rewrite Hr. cbn beta iota.
  unfold append_header, open_file, now_system, emit, bind, ret.
  cbn beta iota. cbn [reads opens trace].
  destruct (io_ok env (opens st)); cbn beta iota; cbn [reads opens trace];
    rewrite cycle_loop_max_never_ends by (auto; simpl in H2; lia);
    reflexivity.
Qed.

(** ** Reading the cycle count *)

Lemma digit_val_is c :
  is_digit c = true ->
  digit_val c = Some (Z.of_nat (nat_of_ascii c) - 48) /\
  (48 <= nat_of_ascii c <= 57)%nat.
Proof.
  unfold is_digit, digit_val.
  destruct ((48 <=? nat_of_ascii c)%nat && (nat_of_ascii c <=? 57)%nat) eqn:E;
    [|discriminate].
  apply andb_prop in E as [E1 E2]. apply Nat.leb_le in E1, E2. auto.
Qed.

Lemma digit_not_space c : is_digit c = true -> is_space c = false.
Proof.
  intros H. apply digit_val_is in H as [_ Hn].
  assert (Hc : (nat_of_ascii c = 48 \/ nat_of_ascii c = 49 \/ nat_of_ascii c = 50 \/
                nat_of_ascii c = 51 \/ nat_of_ascii c = 52 \/ nat_of_ascii c = 53 \/
                nat_of_ascii c = 54 \/ nat_of_ascii c = 55 \/ nat_of_ascii c = 56 \/
                nat_of_ascii c = 57)%nat) by lia.
  unfold is_space.
  repeat (destruct Hc as [Hc|Hc]; [rewrite Hc; reflexivity|]); rewrite Hc; reflexivity.
Qed.

Lemma digit_not_sign c : is_digit c = true -> Ascii.eqb c "-"%char = false /\ Ascii.eqb c "+"%char = false.
Proof.
  intros H. split.
  - destruct (Ascii.eqb_spec c "-"%char) as [->|]; [discriminate H | reflexivity].
  - destruct (Ascii.eqb_spec c "+"%char) as [->|]; [discriminate H | reflexivity].
Qed.

Lemma skip_ws_prefix ws s : forallb is_space ws = true -> skip_ws (with_prefix ws s) = skip_ws s.
Proof.
  induction ws as [|c ws IH]; intros H; [reflexivity|].
  cbn [forallb with_prefix skip_ws] in *. apply andb_prop in H as [Hc Hr].
  rewrite Hc. auto.
Qed.

Lemma digit_step_mono ds a :
  forallb is_digit ds = true -> 0 <= a -> 0 <= fold_left digit_step ds a /\ a <= fold_left digit_step ds a.
Proof.
  revert a. induction ds as [|c ds IH]; intros a H Ha; cbn [fold_left]; [lia|].
  cbn [forallb] in H. apply andb_prop in H as [Hc Hr].
  apply digit_val_is in Hc as [_ Hn].
  assert (Hs : a <= digit_step a c /\ 0 <= digit_step a c) by (unfold digit_step; lia).
  destruct (IH (digit_step a c) Hr ltac:(lia)). lia.
Qed.

Lemma scan_digits_end maxv s acc ovf nd :
  starts_non_digit s = true -> scan_digits maxv s acc ovf nd = (acc, ovf, nd, s).
Proof.
  destruct s as [|c r]; intros H; [reflexivity|]. cbn [scan_digits].
  unfold starts_non_digit, is_digit in H. destruct (digit_val c); [discriminate|reflexivity].
Qed.

Lemma scan_digits_ovf maxv ds s acc nd :
  forallb is_digit ds = true -> starts_non_digit s = true ->
  scan_digits maxv (with_prefix ds s) acc true nd = (acc, true, (nd + List.length ds)%nat, s).
Proof.
  revert nd. induction ds as [|c ds IH]; intros nd Hd Hs; cbn [with_prefix].
  - rewrite Nat.add_0_r. apply scan_digits_end; auto.
  - cbn [forallb] in Hd. apply andb_prop in Hd as [Hc Hr]. cbn [scan_digits].
    rewrite (proj1 (digit_val_is c Hc)). cbn [orb]. rewrite IH by auto.
    replace (nd + List.length (c :: ds))%nat with (S nd + List.length ds)%nat by (simpl; lia).
    reflexivity.
Qed.

Lemma scan_digits_ok maxv ds s acc nd :
  forallb is_digit ds = true -> starts_non_digit s = true -> 0 <= acc ->
  fold_left digit_step ds acc <= maxv ->
  scan_digits maxv (with_prefix ds s) acc false nd =
  (fold_left digit_step ds acc, false, (nd + List.length ds)%nat, s).
Proof.
  revert acc nd. induction ds as [|c ds IH]; intros acc nd Hd Hs Ha Hm; cbn [with_prefix].
  - rewrite Nat.add_0_r. apply scan_digits_end; auto.
  - cbn [forallb] in Hd. apply andb_prop in Hd as [Hc Hr]. cbn [scan_digits].
    cbn [fold_left] in Hm |- *.
    pose proof (digit_val_is c Hc) as [Hv Hn]. rewrite Hv. cbn [orb].
    pose proof (digit_step_mono ds (digit_step acc c) Hr ltac:(unfold digit_step; lia)).
    replace (maxv <? acc * 10 + (Z.of_nat (nat_of_ascii c) - 48)) with false
      by (symmetry; apply Z.ltb_ge; unfold digit_step in *; lia).
    rewrite IH by (auto; unfold digit_step; lia).
    replace (nd + List.length (c :: ds))%nat with (S nd + List.length ds)%nat by (simpl; lia).
    reflexivity.
Qed.

Lemma scan_digits_over maxv ds s acc nd :
  forallb is_digit ds = true -> starts_non_digit s = true -> 0 <= acc <= maxv ->
  maxv < fold_left digit_step ds acc ->
  exists a, scan_digits maxv (with_prefix ds s) acc false nd = (a, true, (nd + List.length ds)%nat, s).
Proof.
  revert acc nd. induction ds as [|c ds IH]; intros acc nd Hd Hs Ha Hm; cbn [with_prefix].
  - cbn in Hm. lia.
  - cbn [forallb] in Hd. apply andb_prop in Hd as [Hc Hr]. cbn [scan_digits].
    cbn [fold_left] in Hm.
    pose proof (digit_val_is c Hc) as [Hv Hn]. rewrite Hv. cbn [orb].
    destruct (maxv <? acc * 10 + (Z.of_nat (nat_of_ascii c) - 48)) eqn:E.
    + exists acc. rewrite scan_digits_ovf by auto.
      replace (nd + List.length (c :: ds))%nat with (S nd + List.length ds)%nat by (simpl; lia).
      reflexivity.
    + apply Z.ltb_ge in E.
      destruct (IH (digit_step acc c) (S nd)) as [a Ha']; auto; [unfold digit_step; lia|].
      exists a. unfold digit_step in Ha'. rewrite Ha'.
      replace (nd + List.length (c :: ds))%nat with (S nd + List.length ds)%nat by (simpl; lia).
      reflexivity.
Qed.

(** The number after the white space and the optional sign. *)
Lemma extract_digits w old ws c ds s :
  0 < w -> forallb is_space ws = true -> forallb is_digit (c :: ds) = true -> starts_non_digit s = true ->
  extract_n_type w old (with_prefix ws (with_prefix (c :: ds) s)) =
  if 2 ^ w - 1 <? digits_value (c :: ds)
  then (2 ^ w - 1, true, match s with EmptyString => true | _ => false end)
  else (digits_value (c :: ds), false, match s with EmptyString => true | _ => false end).
Proof.
  intros Hw Hws Hd Hs. pose proof (Z.pow_pos_nonneg 2 w ltac:(lia) ltac:(lia)).
  unfold extract_n_type. rewrite skip_ws_prefix by auto.
  pose proof Hd as Hd'. cbn [forallb] in Hd'. apply andb_prop in Hd' as [Hc _].
  cbn [with_prefix skip_ws]. rewrite (digit_not_space c Hc).
  destruct (digit_not_sign c Hc) as [Hm Hp]. rewrite Hm, Hp. cbn [orb].
  change (String c (with_prefix ds s)) with (with_prefix (c :: ds) s).
  destruct (2 ^ w - 1 <? digits_value (c :: ds)) eqn:E.
  - apply Z.ltb_lt in E.
    destruct (scan_digits_over (2 ^ w - 1) (c :: ds) s 0 0 Hd Hs ltac:(lia) E) as [a ->].
    reflexivity.
  - apply Z.ltb_ge in E.
    rewrite scan_digits_ok by (auto; lia). reflexivity.
Qed.

Lemma extract_minus w old ws c ds s :
  0 < w -> forallb is_space ws = true -> forallb is_digit (c :: ds) = true ->
  starts_non_digit s = true -> digits_value (c :: ds) <= 2 ^ w - 1 ->
  extract_n_type w old (with_prefix ws (String "-" (with_prefix (c :: ds) s))) =
  (wrap w (- digits_value (c :: ds)), false, match s with EmptyString => true | _ => false end).
Proof.
  intros Hw Hws Hd Hs Hv. unfold extract_n_type. rewrite skip_ws_prefix by auto.
  cbn [with_prefix skip_ws].
  replace (is_space "-"%char) with false by reflexivity.
  cbn -[scan_digits with_prefix Z.pow wrap].
  change (String c (with_prefix ds s)) with (with_prefix (c :: ds) s).
  unfold digits_value in *.
  rewrite scan_digits_ok by (auto; lia). reflexivity.
Qed.

(** No digit after the white space and the optional sign. *)
Lemma extract_no_digit w old ws sg s :
  forallb is_space ws = true -> (sg = [] \/ sg = ["-"%char] \/ sg = ["+"%char]) ->
  starts_non_digit s = true ->
  (sg = [] -> match s with
              | String c _ => is_space c = false /\ c <> "-"%char /\ c <> "+"%char
              | EmptyString => True
              end) ->
  exists v e, extract_n_type w old (with_prefix ws (with_prefix sg s)) = (v, true, e).
Proof.
  intros Hws Hsg Hs Hc. unfold extract_n_type. rewrite skip_ws_prefix by auto.
  destruct Hsg as [ -> | [ -> | -> ]]; cbn [with_prefix].
  - specialize (Hc eq_refl). destruct s as [|c r]; cbn [skip_ws]; [eauto|].
    destruct Hc as (Hsp & Hm & Hp). rewrite Hsp.
    destruct (Ascii.eqb_spec c "-"%char); [congruence|].
    destruct (Ascii.eqb_spec c "+"%char); [congruence|]. cbn [orb].
    rewrite scan_digits_end by exact Hs. cbn. eauto.
  - cbn [skip_ws]. replace (is_space "-"%char) with false by reflexivity.
    cbn -[scan_digits]. rewrite scan_digits_end by exact Hs. cbn. eauto.
  - cbn [skip_ws]. replace (is_space "+"%char) with false by reflexivity.
    cbn -[scan_digits]. rewrite scan_digits_end by exact Hs. cbn. eauto.
Qed.

Lemma read_cycles_warn w input st v e :
  (extract_n_type w 1 input = (v, true, e) \/ extract_n_type w 1 input = (v, false, true) \/
   (exists e', extract_n_type w 1 input = (v, false, e') /\ v < 1)) ->
  read_cycles w input st = Some (1, mkSt (reads st) (opens st) (trace st ++ [Cerr invalid_msg])).
Proof.
  intros [H|[H|(e' & H & Hv)]]; unfold read_cycles; rewrite H; [reflexivity|reflexivity|].
  replace (v <? 1) with true by (symmetry; apply Z.ltb_lt; exact Hv).
  destruct e'; reflexivity.
Qed.

Lemma read_cycles_good w input st v :
  extract_n_type w 1 input = (v, false, false) -> 1 <= v ->
  read_cycles w input st = Some (v, st).
Proof.
  intros H Hv. unfold read_cycles. rewrite H. cbn [negb andb orb].
  replace (v <? 1) with false by (symmetry; apply Z.ltb_ge; exact Hv).
  unfold ret. destruct st; reflexivity.
Qed.

(** ** Alignment pauses *)

Lemma sec_of_minute_range t : 0 <= sec_of_minute t < 60.
Proof. unfold sec_of_minute. apply Z.mod_pos_bound. lia. Qed.

Lemma wrap_pause w t : 13 <= w -> wrap w (sec_of_minute t * 100) = 100 * sec_of_minute t.
Proof.
  intros Hw. pose proof (sec_of_minute_range t).
  assert (H13 : 2 ^ 13 <= 2 ^ w) by (apply Z.pow_le_mono_r; lia).
  rewrite wrap_small by (cbn in H13; lia). lia.
Qed.

Lemma pause_v2_reads env w fuel :
  13 <= w ->
  forall k buf st buf' st',
    reads st = S k ->
    pause_v2 env w fuel (sec_of_minute (system env k)) buf st = Some (buf', st') ->
    exists n, reads st' = S (k + n) /\ opens st' = opens st /\
      buf' = buf ++ map (fun j => Paused (100 * sec_of_minute (system env j))) (seq k n) /\
      trace st' = trace st ++ map (fun j => Sleep (100 * sec_of_minute (system env j))) (seq k n) /\
      (forall j, (k <= j < k + n)%nat -> sec_of_minute (system env j) mod 8 = 0) /\
      sec_of_minute (system env (k + n)) mod 8 <> 0.
Proof.
  intros Hw. induction fuel as [|f IH]; intros k buf st buf' st' Hr H; [discriminate|].
  cbn [pause_v2] in H.
  destruct (sec_of_minute (system env k) mod 8 =? 0) eqn:E.
  - apply Z.eqb_eq in E. rewrite wrap_pause in H by exact Hw.
    unfold sleep_for, emit, now_system, bind in H. cbn [reads opens trace] in H.
    rewrite Hr in H.
    apply (IH (S k)) in H as (n & Hr' & Ho & Hb & Ht & Hj & Hend); [|reflexivity].
    exists (S n). cbn [opens trace] in Ho, Ht.
    split; [rewrite Hr'; f_equal; lia|]. split; [exact Ho|].
    split; [rewrite Hb; cbn [seq map]; rewrite <- app_assoc; reflexivity|].
    split; [rewrite Ht; cbn [seq map]; rewrite <- app_assoc; reflexivity|].
    split; [|replace (k + S n)%nat with (S k + n)%nat by lia; exact Hend].
    intros j Hj'. destruct (Nat.eq_dec j k) as [->|]; [exact E|]. apply Hj. lia.
  - unfold ret in H. injection H as <- <-. exists O.
    rewrite Nat.add_0_r. cbn [seq map]. rewrite !app_nil_r.
    repeat split; auto; [intros j Hj; lia|]. apply Z.eqb_neq. exact E.
Qed.

Lemma seq_double_shift (A : Type) (g : nat -> A) k n :
  map (fun j => g (k + 2 * j)%nat) (seq 0 (S n)) =
  g k :: map (fun j => g (S (S k) + 2 * j)%nat) (seq 0 n).
Proof.
  cbn [seq map]. rewrite Nat.add_0_r. f_equal.
  rewrite <- seq_shift, map_map. apply map_ext. intros j. f_equal. lia.
Qed.

Lemma pause_v1_reads env w fuel :
  13 <= w ->
  forall k buf st buf' st',
    reads st = S k ->
    pause_v1 env w fuel (wrap w (sec_of_minute (system env k) * 100)) buf st = Some (buf', st') ->
    exists n, reads st' = (k + 2 * n + 2)%nat /\ opens st' = opens st /\
      buf' = buf ++ map (fun j => Paused (100 * sec_of_minute (system env (k + 2 * j)))) (seq 0 n) /\
      trace st' = trace st ++
                  map (fun j => Sleep (100 * sec_of_minute (system env (k + 2 * j)))) (seq 0 n) /\
      (forall j, (j < n)%nat -> sec_of_minute (system env (k + 2 * j + 1)) mod 8 = 0) /\
      sec_of_minute (system env (k + 2 * n + 1)) mod 8 <> 0.
Proof.
  intros Hw. induction fuel as [|f IH]; intros k buf st buf' st' Hr H; [discriminate|].
  cbn [pause_v1] in H. rewrite wrap_pause in H by exact Hw.
  unfold sleep_for, emit, getCurrentSecond, now_system, bind, ret in H.
  cbn [reads opens trace] in H. rewrite Hr in H. cbn beta iota in H.
  destruct (sec_of_minute (system env (S k)) mod 8 =? 0) eqn:E; cbn [negb] in H.
  - apply Z.eqb_eq in E. cbn [reads opens trace] in H.
    apply (IH (S (S k))) in H as (n & Hr' & Ho & Hb & Ht & Hj & Hend); [|reflexivity].
    exists (S n). cbn [opens trace] in Ho, Ht.
    split; [rewrite Hr'; lia|]. split; [exact Ho|].
    split; [rewrite Hb, (seq_double_shift _ (fun m => Paused (100 * sec_of_minute (system env m))));
            rewrite <- app_assoc; reflexivity|].
    split; [rewrite Ht, (seq_double_shift _ (fun m => Sleep (100 * sec_of_minute (system env m))));
            rewrite <- app_assoc; reflexivity|].
    split.
    + intros j Hj'. destruct j as [|j]; [rewrite Nat.add_0_r, Nat.add_1_r; exact E|].
      replace (k + 2 * S j + 1)%nat with (S (S k) + 2 * j + 1)%nat by lia. apply Hj. lia.
    + replace (k + 2 * S n + 1)%nat with (S (S k) + 2 * n + 1)%nat by lia. exact Hend.
  - unfold ret in H. injection H as <- <-. exists O. cbn [seq map reads opens trace].
    rewrite !app_nil_r. split; [lia|]. repeat split; auto; [intros j Hj; lia|].
    rewrite Nat.add_0_r, Nat.add_1_r. apply Z.eqb_neq. exact E.
Qed.

(** ** Progress lines *)



(** ** Elapsed-time breakdown of a negative duration *)

Lemma breakdown_opp u :
  breakdown (- u) =
  let '(d, h, mi, s, ms) := breakdown u in (- d, - h, - mi, - s, - ms).
Proof.
  unfold breakdown. cbn zeta.
  repeat (rewrite ?Z.quot_opp_l by lia; rewrite ?Z.rem_opp_l by lia).
  reflexivity.
Qed.

Lemma breakdown_bounds u :
  0 <= u ->
  let '(d, h, mi, s, ms) := breakdown u in
  0 <= d /\ 0 <= h < 24 /\ 0 <= mi < 60 /\ 0 <= s < 60 /\ 0 <= ms < 1000 /\
  d * 86400000 + h * 3600000 + mi * 60000 + s * 1000 + ms = u.
Proof.
  intros Hu. unfold breakdown. cbn zeta.
  change (1000 * 60 * 60 * 24) with 86400000. change (1000 * 60 * 60) with 3600000.
  change (1000 * 60) with 60000.
  rewrite (Z.rem_mod_nonneg u), (Z.quot_div_nonneg u) by lia.
  set (r1 := u mod 86400000).
  assert (Hr1 : 0 <= r1 < 86400000) by (apply Z.mod_pos_bound; lia).
  rewrite (Z.rem_mod_nonneg r1), (Z.quot_div_nonneg r1) by lia.
  set (r2 := r1 mod 3600000).
  assert (Hr2 : 0 <= r2 < 3600000) by (apply Z.mod_pos_bound; lia).
  rewrite (Z.rem_mod_nonneg r2), (Z.quot_div_nonneg r2) by lia.
  set (r3 := r2 mod 60000).
  assert (Hr3 : 0 <= r3 < 60000) by (apply Z.mod_pos_bound; lia).
  rewrite (Z.rem_mod_nonneg r3), (Z.quot_div_nonneg r3) by lia.
  pose proof (Z.div_mod u 86400000 ltac:(lia)).
  pose proof (Z.div_mod r1 3600000 ltac:(lia)).
  pose proof (Z.div_mod r2 60000 ltac:(lia)).
  pose proof (Z.div_mod r3 1000 ltac:(lia)).
  pose proof (Z.mod_pos_bound r3 1000 ltac:(lia)).
  assert (0 <= u / 86400000) by (apply Z.div_pos; lia).
  repeat split; try lia;
    try (apply Z.div_pos; lia);
    try (apply Z.div_lt_upper_bound; lia).
Qed.

(** ** Error stream of a whole run *)

Lemma now_system_trace env s t s' : now_system env s = Some (t, s') -> trace s' = trace s.
Proof. unfold now_system. intros H. injection H as _ <-. reflexivity. Qed.

Lemma append_summary_cerr env b s u s' :
  append_summary env b s = Some (u, s') -> filter is_cerr (trace s') = filter is_cerr (trace s).
Proof.
  unfold append_summary, open_file, bind, emit, ret. cbn [reads opens trace].
  destruct (io_ok env (opens s)); intros H; injection H as _ <-; cbn [trace];
    rewrite ?filter_app; cbn; rewrite ?app_nil_r; reflexivity.
Qed.

Lemma append_header_cerr env c s u s' :
  append_header env c s = Some (u, s') -> filter is_cerr (trace s') = filter is_cerr (trace s).
Proof.
  unfold append_header, open_file, now_system, bind, emit, ret. cbn [reads opens trace].
  destruct (io_ok env (opens s)); intros H; injection H as _ <-; cbn [trace];
    rewrite ?filter_app; cbn; rewrite ?app_nil_r; reflexivity.
Qed.

Lemma read_cycles_cerr w input s c s' :
  read_cycles w input s = Some (c, s') ->
  filter is_cerr (trace s') = filter is_cerr (trace s) \/
  filter is_cerr (trace s') = filter is_cerr (trace s) ++ [Cerr invalid_msg].
Proof.
  unfold read_cycles. destruct (extract_n_type w 1 input) as [[v fl] eo].
  destruct (negb (negb fl && negb eo) || (v <? 1)); unfold bind, emit, ret; intros H;
    injection H as _ <-; cbn [trace]; rewrite ?filter_app; auto.
Qed.

Lemma run_main_cerr env w (body : Z -> Z -> M Z) fuel input st r st' :
  (forall cycles c s it s', body cycles c s = Some (it, s') ->
     filter is_cerr (trace s') = filter is_cerr (trace s)) ->
  run_main env w body fuel input st = Some (r, st') ->
  (dirs_ok env = false /\ r = 1 /\
   st' = mkSt (reads st) (opens st) (trace st ++ [Cerr "Directories do not exist"])) \/
  (dirs_ok env = true /\ r = 0 /\
   (filter is_cerr (trace st') = filter is_cerr (trace st) \/
    filter is_cerr (trace st') = filter is_cerr (trace st) ++ [Cerr invalid_msg])).
Proof.
  intros Hb H. unfold run_main in H. destruct (dirs_ok env) eqn:Hd; cbn [negb] in H.
  - right. apply bind_Some in H as (c & s1 & Hr & H).
    apply bind_Some in H as (u & s2 & Hh & H).
    apply bind_Some in H as (t0 & s3 & Hn & H).
    apply bind_Some in H as (sum & s4 & Hl & H).
    apply bind_Some in H as (t1 & s5 & Hn2 & H).
    cbn zeta in H. destruct (breakdown (t1 - t0)) as [[[[d h] mi] sc] ms].
    apply bind_Some in H as (u2 & s6 & Ha & H). unfold ret in H. injection H as <- <-.
    split; [reflexivity|]. split; [reflexivity|].
    rewrite (append_summary_cerr _ _ _ _ _ Ha), (now_system_trace _ _ _ _ Hn2).
    rewrite (cycle_loop_cerr w _ (Hb c) _ _ _ _ _ _ _ Hl).
    rewrite (now_system_trace _ _ _ _ Hn), (append_header_cerr _ _ _ _ _ Hh).
    exact (read_cycles_cerr _ _ _ _ _ Hr).
  - left. unfold bind, emit, ret in H. injection H as <- <-. auto.
Qed.

(** ** The claims *)

(** *** C1: the cycle loop *)

(** C1 (code bug): a cycle count of [2^w - 1], the largest [n_type] value,
    is read without a warning from any input that yields it (for instance
    "18446744073709551615" with a 64-bit [n_type]); then, with the log
    directories in place, neither program ever returns, for any amount of
    fuel, because [cycle <= cycles] holds for every [n_type] value of
    [cycle]. *)
Theorem C1_max_count_never_ends env w fuel input st :
  0 < w -> dirs_ok env = true ->
  read_cycles w input st = Some (2 ^ w - 1, st) ->
  main_v1 env w fuel input st = None /\ main_v2 env w fuel input st = None.
Proof.
  intros Hw Hd Hr. unfold main_v1, main_v2.
  split; apply run_main_max_never_ends; assumption.
Qed.

Lemma C1_witness :
  0 < 64 /\ dirs_ok env_demo = true /\
  read_cycles 64 input_max st0 = Some (2 ^ 64 - 1, st0) /\
  main_v1 env_demo 64 100 input_max st0 = None /\ main_v2 env_demo 64 100 input_max st0 = None.
Proof.
  split; [lia|]. split; [reflexivity|]. split; [vm_compute; reflexivity|].
  apply (C1_max_count_never_ends env_demo 64 100 input_max st0);
    [lia | reflexivity | vm_compute; reflexivity].
Defined.

(** *** C2: the counting loop *)

(** C2 (counterexample): in program.cxx the loop started at second 1 of
    the minute leaves after 6 passes, when the wall clock reaches second 2,
    although only 500 ms have gone by on both clocks since its first
    reading. *)
Lemma C2_counterexample :
  sec_of_minute (system env_demo 0) = 1 /\
  count_v1 env_demo 64 100 1 1 1 1 0 0 [] st0 = Some ((6, []), mkSt 6 0 []) /\
  steady env_demo 5 - steady env_demo 0 = 500 /\
  system env_demo 5 - system env_demo 0 = 500.
Proof. vm_compute. repeat split. Qed.

(** C2: both counting loops add one iteration per pass and sleep nowhere
    (the trace is unchanged). In program_optimized.cxx the loop leaves at
    the first monotonic reading [>= endTp] (all earlier ones were [< endTp]),
    [endTp] being the start reading plus 1000 ms; in program.cxx it leaves
    after the first pass whose closing second-of-minute sample differs
    from the start sample [ss], with no condition on elapsed time. *)
Theorem C2_counting_loop_exit env w fuel cycle cycles buf st
    endTp it2 buf2 st2 ss it1 buf1 st1 :
  count_v2 env w fuel cycle cycles endTp 0 0 buf st = Some ((it2, buf2), st2) ->
  count_v1 env w fuel cycle cycles ss ss 0 0 buf st = Some ((it1, buf1), st1) ->
  (exists p, it2 = wrap w (Z.of_nat p) /\
     (forall q, (q < p)%nat -> steady env (steady_idx w (reads st) q) < endTp) /\
     endTp <= steady env (steady_idx w (reads st) p) /\ trace st2 = trace st) /\
  (exists p, (1 <= p)%nat /\ it1 = wrap w (Z.of_nat p) /\
     (forall q, (1 <= q < p)%nat -> sec_of_minute (system env (chk1 w (reads st) q)) = ss) /\
     sec_of_minute (system env (chk1 w (reads st) p)) <> ss /\ trace st1 = trace st).
Proof.
  intros H2 H1. split.
  - apply count_v2_run in H2 as (p & Hit & Hq & Hend & _ & ->).
    exists p. repeat split; auto.
  - apply count_v1_run in H1 as (p & Hp & Hit & Hq & Hend & _ & ->).
    exists p. repeat split; auto.
Qed.

Lemma C2_witness :
  (exists p, 10 = wrap 64 (Z.of_nat p) /\
     (forall q, (q < p)%nat -> steady env_demo (steady_idx 64 0 q) < 1000) /\
     1000 <= steady env_demo (steady_idx 64 0 p) /\ trace (mkSt 11 0 []) = trace st0) /\
  (exists p, (1 <= p)%nat /\ 6 = wrap 64 (Z.of_nat p) /\
     (forall q, (1 <= q < p)%nat -> sec_of_minute (system env_demo (chk1 64 0 q)) = 1) /\
     sec_of_minute (system env_demo (chk1 64 0 p)) <> 1 /\ trace (mkSt 6 0 []) = trace st0).
Proof.
  apply (C2_counting_loop_exit env_demo 64 100 1 1 [] st0 1000 10 [] (mkSt 11 0 [])
           1 6 [] (mkSt 6 0 [])); vm_compute; reflexivity.
Defined.

(** *** C3: the two variants *)

(** C3 (counterexample): under the same clocks and the same input "2", the
    two programs write different records: program.cxx counts 3 iterations
    in cycle 2 where program_optimized.cxx counts 8, and the final sums
    and averages differ. *)
Lemma C3_counterexample :
  main_v1 env_demo 64 100 input_2 st0 =
    Some (0, mkSt 28 6
      [SummaryAppend (SHeader 2 1);
       DetailWrite (mkFname 1 2 1) [IterLine 8 2 3];
       SummaryAppend (SCycle 1 2 8 3);
       DetailWrite (mkFname 3 2 2) [IterLine 3 3 4];
       SummaryAppend (SCycle 2 3 3 4);
       SummaryAppend (SFinal 11 2 1 4 5 0 0 0 2 600)]) /\
  main_v2 env_demo 64 100 input_2 st0 =
    Some (0, mkSt 33 6
      [SummaryAppend (SHeader 2 1);
       DetailWrite (mkFname 1 2 1) [IterLine 8 2 3];
       SummaryAppend (SCycle 1 2 8 3);
       DetailWrite (mkFname 3 2 2) [IterLine 8 3 4];
       SummaryAppend (SCycle 2 3 8 4);
       SummaryAppend (SFinal 16 2 1 4 8 0 0 0 3 100)]).
Proof. split; vm_compute; reflexivity. Qed.

(** C3: run from the same state, each variant's cycle writes records of the
    same layout [cycle_shape]: the sleeps of its pause, then the detail
    file with one pause line per sleep, the progress lines at the passes
    whose counter is a multiple of 100,000 and the [Iterations] line, then
    the summary block; the values in them (sleeps, counts, times) are each
    variant's own. *)
Theorem C3_same_record_layout env w fuel cycles cycle st it1 st1 it2 st2 :
  cycle_v1 env w fuel cycles cycle st = Some (it1, st1) ->
  cycle_v2 env w fuel cycles cycle st = Some (it2, st2) ->
  cycle_shape env w cycles cycle st it1 st1 /\ cycle_shape env w cycles cycle st it2 st2.
Proof.
  intros H1 H2. split; [exact (cycle_v1_shape _ _ _ _ _ _ _ _ H1)
                       | exact (cycle_v2_shape _ _ _ _ _ _ _ _ H2)].
Qed.

Lemma C3_witness :
  cycle_shape env_demo 64 1 1 st0 10
    (mkSt 17 2 [DetailWrite (mkFname 1 1 1) [IterLine 10 1 3];
                SummaryAppend (SCycle 1 1 10 3)]) /\
  cycle_shape env_demo 64 1 1 st0 8
    (mkSt 15 2 [DetailWrite (mkFname 1 1 1) [IterLine 8 1 2];
                SummaryAppend (SCycle 1 1 8 2)]).
Proof. apply (C3_same_record_layout env_demo 64 100 1 1 st0); vm_compute; reflexivity. Defined.

(** *** C4: the alignment pause *)

(** C4: with the wall clock read at 7.999 s, 8.000 s, 8.800 s, 9.8 s,
    program.cxx computes [pauseMs] from the first sample (second 7), checks
    the second sample (second 8, a multiple of 8) and sleeps 700 ms, not
    the 800 ms of the checked second; program_optimized.cxx, started on
    the sample at 8.000 s, sleeps 800 ms per checked second 8. *)
Theorem C4_v1_sleeps_on_stale_sample :
  sec_of_minute (system env_pause 0) = 7 /\
  sec_of_minute (system env_pause 1) = 8 /\
  alignment_pause_v1 env_pause 64 5 st0 = Some ([Paused 700], mkSt 4 0 [Sleep 700]) /\
  alignment_pause_v2 env_pause 64 5 (mkSt 1 0 []) =
    Some ([Paused 800; Paused 800], mkSt 4 0 [Sleep 800; Sleep 800]).
Proof. vm_compute. repeat split. Qed.

(** *** C5: failed detail-file writes *)

(** C5 (counterexample): the open of the detail file of cycle 1 (open
    number 1) fails; program_optimized.cxx still counts the cycle (sum 16)
    and runs cycle 2, but the detail file of cycle 1 is missing and no
    message reaches the error stream. *)
Lemma C5_counterexample :
  io_ok env_detail_fail 1 = false /\
  main_v2 env_detail_fail 64 100 input_2 st0 =
    Some (0, mkSt 33 6
      [SummaryAppend (SHeader 2 1);
       SummaryAppend (SCycle 1 2 8 3);
       DetailWrite (mkFname 3 2 2) [IterLine 8 3 4];
       SummaryAppend (SCycle 2 3 8 4);
       SummaryAppend (SFinal 16 2 1 4 8 0 0 0 3 100)]).
Proof. split; vm_compute; reflexivity. Qed.

(** C5: whatever file opens fail ([set_io env f]), the cycle loop of both
    programs returns the same total and makes the same clock reads, sleeps
    and error-stream output as with the original outcomes; and the loop
    writes nothing to the error stream: a failed detail write is counted
    and skipped silently. *)
Theorem C5_detail_failure_silent env w fuel cycles st f sum1 st1 sum2 st2 :
  cycle_loop w fuel (cycle_v1 env w fuel cycles) cycles 1 0 st = Some (sum1, st1) ->
  cycle_loop w fuel (cycle_v2 env w fuel cycles) cycles 1 0 st = Some (sum2, st2) ->
  (exists st1', cycle_loop w fuel (cycle_v1 (set_io env f) w fuel cycles) cycles 1 0 st
                = Some (sum1, st1') /\ st_rel st1 st1') /\
  filter is_cerr (trace st1) = filter is_cerr (trace st) /\
  (exists st2', cycle_loop w fuel (cycle_v2 (set_io env f) w fuel cycles) cycles 1 0 st
                = Some (sum2, st2') /\ st_rel st2 st2') /\
  filter is_cerr (trace st2) = filter is_cerr (trace st).
Proof.
  intros H1 H2. split; [|split; [|split]].
  - exact (io_indep_cycle_loop w (fun e c => cycle_v1 e w fuel cycles c) fuel cycles 1 0
             (fun c => io_indep_cycle_v1 w fuel cycles c) env f st st sum1 st1
             (st_rel_refl st) H1).
  - exact (cycle_loop_cerr w _ (fun c st it st' H => cycle_v1_cerr env w fuel cycles c st it st' H)
             fuel cycles 1 0 st sum1 st1 H1).
  - exact (io_indep_cycle_loop w (fun e c => cycle_v2 e w fuel cycles c) fuel cycles 1 0
             (fun c => io_indep_cycle_v2 w fuel cycles c) env f st st sum2 st2
             (st_rel_refl st) H2).
  - exact (cycle_loop_cerr w _ (fun c st it st' H => cycle_v2_cerr env w fuel cycles c st it st' H)
             fuel cycles 1 0 st sum2 st2 H2).
Qed.

Lemma C5_witness :
  (exists st1', cycle_loop 64 100 (cycle_v1 (set_io env_demo (fun k => negb (Nat.eqb k 0)))
                                     64 100 1) 1 1 0 st0 = Some (10, st1') /\
     st_rel (mkSt 17 2 [DetailWrite (mkFname 1 1 1) [IterLine 10 1 3];
                        SummaryAppend (SCycle 1 1 10 3)]) st1') /\
  filter is_cerr (trace (mkSt 17 2 [DetailWrite (mkFname 1 1 1) [IterLine 10 1 3];
                                    SummaryAppend (SCycle 1 1 10 3)])) = filter is_cerr (trace st0) /\
  (exists st2', cycle_loop 64 100 (cycle_v2 (set_io env_demo (fun k => negb (Nat.eqb k 0)))
                                     64 100 1) 1 1 0 st0 = Some (8, st2') /\
     st_rel (mkSt 15 2 [DetailWrite (mkFname 1 1 1) [IterLine 8 1 2];
                        SummaryAppend (SCycle 1 1 8 2)]) st2') /\
  filter is_cerr (trace (mkSt 15 2 [DetailWrite (mkFname 1 1 1) [IterLine 8 1 2];
                                    SummaryAppend (SCycle 1 1 8 2)])) = filter is_cerr (trace st0).
Proof.
  apply (C5_detail_failure_silent env_demo 64 100 1 st0 (fun k => negb (Nat.eqb k 0)));
    vm_compute; reflexivity.
Defined.

(** *** C6: failed summary-log appends *)




(** *** C7: invalid input *)

(** C7: the line "-1" is read by [cin >> cycles] as [2^64 - 1] with no
    error flag (libstdc++, 64-bit [uint_fast32_t]), so it passes the check
    [cycles < 1] with no warning and neither program ever finishes, while
    "0" and "abc" are replaced by 1 with the warning. *)
Theorem C7_minus_one_accepted :
  read_cycles 64 input_minus1 st0 = Some (18446744073709551615, st0) /\
  (forall fuel,
     main_v1 env_demo 64 fuel input_minus1 st0 = None /\
     main_v2 env_demo 64 fuel input_minus1 st0 = None) /\
  read_cycles 64 input_0 st0 = Some (1, mkSt 0 0 [Cerr "Invalid input; defaulting to 1."]) /\
  read_cycles 64 input_abc st0 = Some (1, mkSt 0 0 [Cerr "Invalid input; defaulting to 1."]).
Proof.
  split; [vm_compute; reflexivity|]. split.
  - intros fuel.
    split; apply run_main_max_never_ends; (lia || reflexivity || (vm_compute; reflexivity)).
  - split; vm_compute; reflexivity.
Qed.

(** *** C8: the elapsed-time breakdown *)

(** C8: for every elapsed time [t >= 0] in milliseconds, the breakdown of
    the final summary has [0 <= hours < 24], [0 <= minutes < 60],
    [0 <= seconds < 60], [0 <= ms < 1000], and
    [days*86400000 + hours*3600000 + minutes*60000 + seconds*1000 + ms = t]. *)
Theorem C8_breakdown_exact t :
  0 <= t ->
  let '(d, h, mi, s, ms) := breakdown t in
  0 <= h < 24 /\ 0 <= mi < 60 /\ 0 <= s < 60 /\ 0 <= ms < 1000 /\
  d * 86400000 + h * 3600000 + mi * 60000 + s * 1000 + ms = t.
Proof.
  intros Ht. unfold breakdown. simpl.
  assert (Hr1 : 0 <= t mod 86400000 < 86400000) by (apply Z.mod_pos_bound; lia).
  assert (Hr2 : 0 <= (t mod 86400000) mod 3600000 < 3600000) by (apply Z.mod_pos_bound; lia).
  assert (Hr3 : 0 <= ((t mod 86400000) mod 3600000) mod 60000 < 60000)
    by (apply Z.mod_pos_bound; lia).
  rewrite (Z.rem_mod_nonneg t) by lia. rewrite (Z.quot_div_nonneg t) by lia.
  rewrite (Z.quot_div_nonneg (t mod 86400000)) by lia.
  rewrite (Z.rem_mod_nonneg (t mod 86400000)) by lia.
  rewrite (Z.quot_div_nonneg ((t mod 86400000) mod 3600000)) by lia.
  rewrite (Z.rem_mod_nonneg ((t mod 86400000) mod 3600000)) by lia.
  rewrite (Z.quot_div_nonneg (((t mod 86400000) mod 3600000) mod 60000)) by lia.
  rewrite (Z.rem_mod_nonneg (((t mod 86400000) mod 3600000) mod 60000)) by lia.
  set (r1 := t mod 86400000) in *. set (r2 := r1 mod 3600000) in *.
  set (r3 := r2 mod 60000) in *.
  pose proof (Z.div_mod t 86400000 ltac:(lia)).
  pose proof (Z.div_mod r1 3600000 ltac:(lia)).
  pose proof (Z.div_mod r2 60000 ltac:(lia)).
  pose proof (Z.div_mod r3 1000 ltac:(lia)).
  pose proof (Z.mod_pos_bound r3 1000 ltac:(lia)).
  repeat split; try lia;
    try (apply Z.div_pos; lia);
    try (apply Z.div_lt_upper_bound; lia).
Qed.

Lemma C8_witness :
  0 <= 93784005 /\
  let '(d, h, mi, s, ms) := breakdown 93784005 in
  0 <= h < 24 /\ 0 <= mi < 60 /\ 0 <= s < 60 /\ 0 <= ms < 1000 /\
  d * 86400000 + h * 3600000 + mi * 60000 + s * 1000 + ms = 93784005.
Proof. split; [lia | apply (C8_breakdown_exact 93784005); lia]. Defined.

(** *** C9: the average *)

(** C9: the cycle count [read_cycles] returns is at least 1, so the
    average [avg_ops sum cycles] written to the summary is the truncated
    quotient [sum / cycles] of the (non-negative) total; two cycles
    totalling 5000001 + 4999999 give 5000000. *)
Theorem C9_average_truncating w input st cycles st' :
  read_cycles w input st = Some (cycles, st') ->
  1 <= cycles /\
  (forall sum, 0 <= sum -> avg_ops sum cycles = Z.quot sum cycles) /\
  avg_ops (5000001 + 4999999) 2 = 5000000.
Proof.
  intros H.
  assert (Hc : 1 <= cycles).
  { unfold read_cycles in H. destruct (extract_n_type w 1 input) as [[v fl] eo].
    destruct (negb (negb fl && negb eo) || (v <? 1)) eqn:E.
    - unfold bind, emit, ret in H. injection H as <- _. lia.
    - unfold ret in H. injection H as <- _.
      apply orb_false_iff in E as [_ E]. apply Z.ltb_ge in E. exact E. }
  split; [exact Hc|]. split; [|reflexivity].
  intros sum Hs. unfold avg_ops.
  replace (0 <? cycles) with true by (symmetry; apply Z.ltb_lt; lia).
  symmetry. apply Z.quot_div_nonneg; lia.
Qed.

Lemma C9_witness :
  1 <= 2 /\
  (forall sum, 0 <= sum -> avg_ops sum 2 = Z.quot sum 2) /\
  avg_ops (5000001 + 4999999) 2 = 5000000.
Proof. apply (C9_average_truncating 64 input_2 st0 2 st0); vm_compute; reflexivity. Defined.

(** *** C10: modular accumulation *)

(** C10: with [n_type] of [w] bits, the total of a run of [N] cycles is
    the sum of the cycles' iteration counts modulo [2^w]; and the iteration
    count each counting loop returns (which the cycle body returns as is)
    is its number of passes [p] modulo [2^w]. The number [p] is fixed by
    the loop's clock reads: in program_optimized.cxx the loop made [p]
    passes when its monotonic reads [0 .. p-1] were before [endTp] and read
    [p] was not; in program.cxx when its closing samples [1 .. p-1] were the
    start second and sample [p] was not. Both wrap around silently. *)
Theorem C10_modular_total w (body : Z -> M Z) N fuel st sum st' :
  0 < w -> 1 <= N <= 2 ^ w - 2 -> (Z.to_nat N < fuel)%nat ->
  cycle_loop w fuel body N 1 0 st = Some (sum, st') ->
  (exists its, mapM body (seqZ 1 (Z.to_nat N)) st = Some (its, st') /\
     sum = sumZ its mod 2 ^ w) /\
  (forall env fuel' cycle cycles endTp buf st1 it buf' st1',
     count_v2 env w fuel' cycle cycles endTp 0 0 buf st1 = Some ((it, buf'), st1') ->
     exists p : nat, it = Z.of_nat p mod 2 ^ w /\
       reads st1' = S (steady_idx w (reads st1) p) /\
       (forall q, (q < p)%nat -> steady env (steady_idx w (reads st1) q) < endTp) /\
       endTp <= steady env (steady_idx w (reads st1) p)) /\
  (forall env fuel' cycle cycles ss buf st1 it buf' st1',
     count_v1 env w fuel' cycle cycles ss ss 0 0 buf st1 = Some ((it, buf'), st1') ->
     exists p : nat, (1 <= p)%nat /\ it = Z.of_nat p mod 2 ^ w /\
       reads st1' = (reads st1 + p + 2 * nprog w p)%nat /\
       (forall q, (1 <= q < p)%nat -> sec_of_minute (system env (chk1 w (reads st1) q)) = ss) /\
       sec_of_minute (system env (chk1 w (reads st1) p)) <> ss).
Proof.
  intros Hw HN Hf H. split; [|split].
  - assert (HN' : N = 1 + Z.of_nat (Z.to_nat N) - 1) by lia.
    rewrite HN' in H at 1. rewrite cycle_loop_runs in H by lia.
    destruct (mapM body (seqZ 1 (Z.to_nat N)) st) as [[its st'']|]; [|discriminate].
    injection H as <- <-. exists its. split; [reflexivity|].
    unfold wrap. rewrite ?Z.add_0_l. reflexivity.
  - intros env fuel' cycle cycles endTp buf st1 it buf' st1' Hc.
    apply count_v2_run in Hc as (p & Hit & Hq & Hend & _ & ->).
    exists p. repeat split; auto.
  - intros env fuel' cycle cycles ss buf st1 it buf' st1' Hc.
    apply count_v1_run in Hc as (p & Hp & Hit & Hq & Hend & _ & ->).
    exists p. repeat split; auto.
Qed.

(** Three cycles of [2^31] iterations each, with a 32-bit [n_type]: the
    total [3 * 2^31] wraps around to [2^31]. *)
Lemma C10_witness :
  (exists its, mapM (fun _ => ret 2147483648) (seqZ 1 3) st0 = Some (its, st0) /\
     2147483648 = sumZ its mod 2 ^ 32) /\
  (forall env fuel' cycle cycles endTp buf st1 it buf' st1',
     count_v2 env 32 fuel' cycle cycles endTp 0 0 buf st1 = Some ((it, buf'), st1') ->
     exists p : nat, it = Z.of_nat p mod 2 ^ 32 /\
       reads st1' = S (steady_idx 32 (reads st1) p) /\
       (forall q, (q < p)%nat -> steady env (steady_idx 32 (reads st1) q) < endTp) /\
       endTp <= steady env (steady_idx 32 (reads st1) p)) /\
  (forall env fuel' cycle cycles ss buf st1 it buf' st1',
     count_v1 env 32 fuel' cycle cycles ss ss 0 0 buf st1 = Some ((it, buf'), st1') ->
     exists p : nat, (1 <= p)%nat /\ it = Z.of_nat p mod 2 ^ 32 /\
       reads st1' = (reads st1 + p + 2 * nprog 32 p)%nat /\
       (forall q, (1 <= q < p)%nat -> sec_of_minute (system env (chk1 32 (reads st1) q)) = ss) /\
       sec_of_minute (system env (chk1 32 (reads st1) p)) <> ss).
Proof.
  apply (C10_modular_total 32 (fun _ => ret 2147483648) 3 10 st0 2147483648 st0);
    [lia | lia | lia | vm_compute; reflexivity].
Defined.

(** ** Further properties of the programs *)

(** *** Reading the cycle count *)

(** X1: a line made of optional white space, decimal digits of a value
    [1 <= v <= 2^w - 1] and any non-digit character (the newline) gives the
    cycle count [v], with nothing on the error stream. *)
Theorem X1_read_cycles_number w ws c ds s st :
  0 < w -> forallb is_space ws = true -> forallb is_digit (c :: ds) = true ->
  starts_non_digit s = true -> s <> EmptyString ->
  1 <= digits_value (c :: ds) <= 2 ^ w - 1 ->
  read_cycles w (with_prefix ws (with_prefix (c :: ds) s)) st = Some (digits_value (c :: ds), st).
Proof.
  intros Hw Hws Hd Hs Hne Hv. apply read_cycles_good; [|lia].
  rewrite extract_digits by auto.
  replace (2 ^ w - 1 <? digits_value (c :: ds)) with false by (symmetry; apply Z.ltb_ge; lia).
  destruct s; [congruence|reflexivity].
Qed.

Lemma X1_witness :
  read_cycles 64 (with_prefix [" "%char] (with_prefix ["4"%char; "2"%char] nl)) st0 =
  Some (digits_value ["4"%char; "2"%char], st0).
Proof.
  apply X1_read_cycles_number;
    [lia | reflexivity | reflexivity | reflexivity | discriminate
    | vm_compute; split; intro H; discriminate H].
Defined.

(** X2: a minus sign before digits of a value [1 <= v <= 2^w - 1] is
    accepted silently as the cycle count [2^w - v]. *)
Theorem X2_read_cycles_minus w ws c ds s st :
  0 < w -> forallb is_space ws = true -> forallb is_digit (c :: ds) = true ->
  starts_non_digit s = true -> s <> EmptyString ->
  1 <= digits_value (c :: ds) <= 2 ^ w - 1 ->
  read_cycles w (with_prefix ws (String "-" (with_prefix (c :: ds) s))) st =
  Some (2 ^ w - digits_value (c :: ds), st).
Proof.
  intros Hw Hws Hd Hs Hne Hv. apply read_cycles_good; [|lia].
  rewrite extract_minus by (auto; lia).
  replace (wrap w (- digits_value (c :: ds))) with (2 ^ w - digits_value (c :: ds)).
  - destruct s; [congruence|reflexivity].
  - unfold wrap. apply (Z.mod_unique _ _ (-1)); lia.
Qed.

Lemma X2_witness :
  read_cycles 64 (with_prefix [] (String "-" (with_prefix ["5"%char] nl))) st0 =
  Some (2 ^ 64 - digits_value ["5"%char], st0).
Proof.
  apply X2_read_cycles_minus;
    [lia | reflexivity | reflexivity | reflexivity | discriminate
    | vm_compute; split; intro H; discriminate H].
Defined.

(** X3: when the digits run to the end of the input (no newline after
    them), eofbit makes [cin.good()] false: whatever the number, the count
    falls back to 1 with the warning. *)
Theorem X3_read_cycles_eof w ws c ds st :
  0 < w -> forallb is_space ws = true -> forallb is_digit (c :: ds) = true ->
  read_cycles w (with_prefix ws (with_prefix (c :: ds) EmptyString)) st =
  Some (1, mkSt (reads st) (opens st) (trace st ++ [Cerr invalid_msg])).
Proof.
  intros Hw Hws Hd.
  apply (read_cycles_warn w _ st (if 2 ^ w - 1 <? digits_value (c :: ds) then 2 ^ w - 1
                                    else digits_value (c :: ds))
                                   (2 ^ w - 1 <? digits_value (c :: ds))).
  rewrite extract_digits by auto.
  destruct (2 ^ w - 1 <? digits_value (c :: ds)); auto.
Qed.

Lemma X3_witness :
  read_cycles 64 (with_prefix [] (with_prefix ["7"%char] EmptyString)) st0 =
  Some (1, mkSt (reads st0) (opens st0) (trace st0 ++ [Cerr invalid_msg])).
Proof. apply X3_read_cycles_eof; [lia | reflexivity | reflexivity]. Defined.

(** X4: a number whose value is 0 (such as "0" or "000") or above
    [2^w - 1] (failbit) is replaced by 1 with the warning. *)
Theorem X4_read_cycles_out_of_range w ws c ds s st :
  0 < w -> forallb is_space ws = true -> forallb is_digit (c :: ds) = true ->
  starts_non_digit s = true ->
  digits_value (c :: ds) = 0 \/ 2 ^ w - 1 < digits_value (c :: ds) ->
  read_cycles w (with_prefix ws (with_prefix (c :: ds) s)) st =
  Some (1, mkSt (reads st) (opens st) (trace st ++ [Cerr invalid_msg])).
Proof.
  intros Hw Hws Hd Hs Hv.
  pose proof (Z.pow_pos_nonneg 2 w ltac:(lia) ltac:(lia)).
  destruct (2 ^ w - 1 <? digits_value (c :: ds)) eqn:E.
  - apply (read_cycles_warn w _ st (2 ^ w - 1) (match s with EmptyString => true | _ => false end)).
    left. rewrite extract_digits by auto. rewrite E. reflexivity.
  - apply Z.ltb_ge in E.
    apply (read_cycles_warn w _ st 0 false). right. right.
    exists (match s with EmptyString => true | _ => false end).
    rewrite extract_digits by auto.
    replace (2 ^ w - 1 <? digits_value (c :: ds)) with false by (symmetry; apply Z.ltb_ge; lia).
    split; [|lia]. replace (digits_value (c :: ds)) with 0 by lia. reflexivity.
Qed.

Lemma X4_witness :
  read_cycles 64 (with_prefix [] (with_prefix ["0"%char; "0"%char] nl)) st0 =
  Some (1, mkSt (reads st0) (opens st0) (trace st0 ++ [Cerr invalid_msg])).
Proof.
  apply X4_read_cycles_out_of_range; [lia | reflexivity | reflexivity | reflexivity |].
  left. reflexivity.
Defined.

(** X5: an input that is blank, or whose first non-blank character is
    neither a digit nor a sign, or whose sign is not followed by a digit,
    gives the count 1 with the warning. *)
Theorem X5_read_cycles_no_number w ws sg s st :
  forallb is_space ws = true -> (sg = [] \/ sg = ["-"%char] \/ sg = ["+"%char]) ->
  starts_non_digit s = true ->
  (sg = [] -> match s with
              | String c _ => is_space c = false /\ c <> "-"%char /\ c <> "+"%char
              | EmptyString => True
              end) ->
  read_cycles w (with_prefix ws (with_prefix sg s)) st =
  Some (1, mkSt (reads st) (opens st) (trace st ++ [Cerr invalid_msg])).
Proof.
  intros Hws Hsg Hs Hc.
  destruct (extract_no_digit w 1 ws sg s Hws Hsg Hs Hc) as (v & e & H).
  apply (read_cycles_warn w _ st v e). left. exact H.
Qed.

Lemma X5_witness :
  read_cycles 64 (with_prefix [" "%char] (with_prefix [] (String "a" (String "b" nl)))) st0 =
  Some (1, mkSt (reads st0) (opens st0) (trace st0 ++ [Cerr invalid_msg])).
Proof.
  apply X5_read_cycles_no_number; [reflexivity | left; reflexivity | reflexivity |].
  intros _. split; [reflexivity | split; discriminate].
Defined.

(** *** Alignment pauses *)

(** X6: the pause of program_optimized.cxx started at read number [k0]
    reads the wall clock [n + 1] times, at [k0, ..., k0 + n]: each of the
    first [n] readings has a second-of-minute [s] that is a multiple of 8
    and is followed by a sleep of exactly [100 * s] ms (0 ms at second 0)
    and a matching pause line; the last reading's second is not a
    multiple of 8. *)
Theorem X6_pause_v2_readings env w fuel st buf' st' :
  13 <= w ->
  alignment_pause_v2 env w fuel st = Some (buf', st') ->
  exists n, reads st' = S (reads st + n) /\ opens st' = opens st /\
    buf' = map (fun j => Paused (100 * sec_of_minute (system env j))) (seq (reads st) n) /\
    trace st' = trace st ++
                map (fun j => Sleep (100 * sec_of_minute (system env j))) (seq (reads st) n) /\
    (forall j, (reads st <= j < reads st + n)%nat -> sec_of_minute (system env j) mod 8 = 0) /\
    sec_of_minute (system env (reads st + n)) mod 8 <> 0.
Proof.
  intros Hw H. unfold alignment_pause_v2, now_system, bind in H.
  apply (pause_v2_reads env w fuel Hw (reads st)) in H as (n & H1 & H2 & H3 & H4 & H5 & H6);
    [|reflexivity].
  exists n. cbn [opens trace app] in *. auto 7.
Qed.

Lemma X6_witness :
  exists n, reads (mkSt 4 0 [Sleep 800; Sleep 800]) = S (reads (mkSt 1 0 []) + n) /\
    opens (mkSt 4 0 [Sleep 800; Sleep 800]) = opens (mkSt 1 0 []) /\
    [Paused 800; Paused 800] =
      map (fun j => Paused (100 * sec_of_minute (system env_pause j))) (seq (reads (mkSt 1 0 [])) n) /\
    trace (mkSt 4 0 [Sleep 800; Sleep 800]) = trace (mkSt 1 0 []) ++
      map (fun j => Sleep (100 * sec_of_minute (system env_pause j))) (seq (reads (mkSt 1 0 [])) n) /\
    (forall j, (reads (mkSt 1 0 []) <= j < reads (mkSt 1 0 []) + n)%nat ->
       sec_of_minute (system env_pause j) mod 8 = 0) /\
    sec_of_minute (system env_pause (reads (mkSt 1 0 []) + n)) mod 8 <> 0.
Proof. apply (X6_pause_v2_readings env_pause 64 5); [lia | vm_compute; reflexivity]. Defined.

(** X7: the pause of program.cxx started at read number [k0] alternates
    two readings per round: the [j]-th sleep lasts [100 * s] ms where [s]
    is the second-of-minute of reading [k0 + 2j], while the decision to
    sleep is taken on the next reading [k0 + 2j + 1] (a multiple of 8);
    the pause ends on the first such decision reading that is not a
    multiple of 8, after [2n + 2] readings. *)
Theorem X7_pause_v1_readings env w fuel st buf' st' :
  13 <= w ->
  alignment_pause_v1 env w fuel st = Some (buf', st') ->
  exists n, reads st' = (reads st + 2 * n + 2)%nat /\ opens st' = opens st /\
    buf' = map (fun j => Paused (100 * sec_of_minute (system env (reads st + 2 * j)))) (seq 0 n) /\
    trace st' = trace st ++
                map (fun j => Sleep (100 * sec_of_minute (system env (reads st + 2 * j)))) (seq 0 n) /\
    (forall j, (j < n)%nat -> sec_of_minute (system env (reads st + 2 * j + 1)) mod 8 = 0) /\
    sec_of_minute (system env (reads st + 2 * n + 1)) mod 8 <> 0.
Proof.
  intros Hw H. unfold alignment_pause_v1, getCurrentSecond, now_system, bind, ret in H.
  cbn [reads opens trace] in H.
  apply (pause_v1_reads env w fuel Hw (reads st)) in H as (n & H1 & H2 & H3 & H4 & H5 & H6);
    [|reflexivity].
  exists n. cbn [opens trace app] in *. auto 7.
Qed.

Lemma X7_witness :
  exists n, reads (mkSt 4 0 [Sleep 700]) = (reads st0 + 2 * n + 2)%nat /\
    opens (mkSt 4 0 [Sleep 700]) = opens st0 /\
    [Paused 700] =
      map (fun j => Paused (100 * sec_of_minute (system env_pause (reads st0 + 2 * j)))) (seq 0 n) /\
    trace (mkSt 4 0 [Sleep 700]) = trace st0 ++
      map (fun j => Sleep (100 * sec_of_minute (system env_pause (reads st0 + 2 * j)))) (seq 0 n) /\
    (forall j, (j < n)%nat -> sec_of_minute (system env_pause (reads st0 + 2 * j + 1)) mod 8 = 0) /\
    sec_of_minute (system env_pause (reads st0 + 2 * n + 1)) mod 8 <> 0.
Proof. apply (X7_pause_v1_readings env_pause 64 5); [lia | vm_compute; reflexivity]. Defined.

(** *** Progress lines *)



(** *** Negative elapsed time *)

(** X9: when the wall clock has gone back during the run ([totalMs <= 0]),
    the truncating C++ division gives a breakdown whose fields are all
    [<= 0], with [-24 < hours], [-60 < minutes], [-60 < seconds] and
    [-1000 < ms], and which still adds up to [totalMs] exactly. *)
Theorem X9_breakdown_negative t :
  t <= 0 ->
  let '(d, h, mi, s, ms) := breakdown t in
  d <= 0 /\ -24 < h <= 0 /\ -60 < mi <= 0 /\ -60 < s <= 0 /\ -1000 < ms <= 0 /\
  d * 86400000 + h * 3600000 + mi * 60000 + s * 1000 + ms = t.
Proof.
  intros Ht. replace t with (- (- t)) by lia. rewrite breakdown_opp.
  pose proof (breakdown_bounds (- t) ltac:(lia)) as Hb.
  destruct (breakdown (- t)) as [[[[d h] mi] s] ms]. lia.
Qed.

Lemma X9_witness :
  -90061001 <= 0 /\
  let '(d, h, mi, s, ms) := breakdown (-90061001) in
  d <= 0 /\ -24 < h <= 0 /\ -60 < mi <= 0 /\ -60 < s <= 0 /\ -1000 < ms <= 0 /\
  d * 86400000 + h * 3600000 + mi * 60000 + s * 1000 + ms = -90061001.
Proof. split; [lia | apply (X9_breakdown_negative (-90061001)); lia]. Defined.

(** *** Error stream of a run *)

(** X10: with the log directories in place, a run of either program that
    ends exits with 0, and the only message it can have written to the
    error stream is the invalid-input warning: failed file writes are never
    reported. *)
Theorem X10_error_stream env w fuel input st r st' :
  dirs_ok env = true ->
  main_v1 env w fuel input st = Some (r, st') \/ main_v2 env w fuel input st = Some (r, st') ->
  r = 0 /\
  (filter is_cerr (trace st') = filter is_cerr (trace st) \/
   filter is_cerr (trace st') = filter is_cerr (trace st) ++ [Cerr invalid_msg]).
Proof.
  intros Hd Hm.
  assert (Hr : (dirs_ok env = false /\ r = 1 /\
     st' = mkSt (reads st) (opens st) (trace st ++ [Cerr "Directories do not exist"])) \/
    (dirs_ok env = true /\ r = 0 /\
     (filter is_cerr (trace st') = filter is_cerr (trace st) \/
      filter is_cerr (trace st') = filter is_cerr (trace st) ++ [Cerr invalid_msg]))).
  { destruct Hm as [H|H]; unfold main_v1, main_v2 in H; apply run_main_cerr in H; auto;
      intros cycles c s it s' Hc; [eapply cycle_v1_cerr | eapply cycle_v2_cerr]; exact Hc. }
  destruct Hr as [(Hf & _) | (_ & Hr0 & Hc)]; [congruence|]. auto.
Qed.

Lemma X10_witness :
  0 = 0 /\
  (filter is_cerr (trace (mkSt 28 6 [SummaryAppend (SHeader 2 1);
       DetailWrite (mkFname 1 2 1) [IterLine 8 2 3];
       SummaryAppend (SCycle 1 2 8 3);
       DetailWrite (mkFname 3 2 2) [IterLine 3 3 4];
       SummaryAppend (SCycle 2 3 3 4);
       SummaryAppend (SFinal 11 2 1 4 5 0 0 0 2 600)])) = filter is_cerr (trace st0) \/
   filter is_cerr (trace (mkSt 28 6 [SummaryAppend (SHeader 2 1);
       DetailWrite (mkFname 1 2 1) [IterLine 8 2 3];
       SummaryAppend (SCycle 1 2 8 3);
       DetailWrite (mkFname 3 2 2) [IterLine 3 3 4];
       SummaryAppend (SCycle 2 3 3 4);
       SummaryAppend (SFinal 11 2 1 4 5 0 0 0 2 600)])) = filter is_cerr (trace st0) ++ [Cerr invalid_msg]).
Proof.
  apply (X10_error_stream env_demo 64 100 input_2 st0); [reflexivity|]. left. vm_compute. reflexivity.
Defined.

(** *** The cycle loop *)

(** X11: for a cycle count [1 <= N <= 2^w - 2] the cycle loop runs the
    cycle body exactly at the indices [1, ..., N], in this order, each on
    the state left by the previous one, and returns the sum of their
    iteration counts modulo [2^w]. *)
Theorem X11_cycle_loop_indices w (body : Z -> M Z) N fuel st :
  0 < w -> 1 <= N <= 2 ^ w - 2 -> (Z.to_nat N < fuel)%nat ->
  cycle_loop w fuel body N 1 0 st =
  match mapM body (seqZ 1 (Z.to_nat N)) st with
  | Some (its, st') => Some (sumZ its mod 2 ^ w, st')
  | None => None
  end.
Proof.
  intros Hw HN Hf.
  assert (HN' : N = 1 + Z.of_nat (Z.to_nat N) - 1) by lia.
  rewrite HN' at 1. rewrite cycle_loop_runs by lia.
  destruct (mapM body (seqZ 1 (Z.to_nat N)) st) as [[its st']|]; [|reflexivity].
  unfold wrap. rewrite Z.add_0_l. reflexivity.
Qed.

Lemma X11_witness :
  cycle_loop 64 100 (cycle_v2 env_demo 64 100 2) 2 1 0 st0 =
  match mapM (cycle_v2 env_demo 64 100 2) (seqZ 1 2) st0 with
  | Some (its, st') => Some (sumZ its mod 2 ^ 64, st')
  | None => None
  end.
Proof. apply (X11_cycle_loop_indices 64 _ 2 100 st0); lia. Defined.

End Bench.
